(** * joystick_ros2: event normalisation and publish timing

    A shallow embedding of [joystick_ros2.py]: the per-model lookup tables,
    [normalize_key_value], [publish_joy] and the timer callback [run_one],
    followed by the properties of the dispatcher that the design document
    states.

    Numbers.  Python integers are [Z].  Python floats (normalised axis
    values, clock readings, the three tunables) are modelled as exact
    rationals [Q]: every finite double is a rational.  The rounding of the
    individual float operations is left out of the main model; the section
    [Rounding] and the module [Binary64] show that the range and the end
    points of the normaliser, and the bound on the nanosecond field, do
    not depend on that.

    Effects.  The node is a record threaded through a small state-and-
    exception monad.  The wall clock is a sequence of readings consumed one
    per call of [time.time()]; the publisher is a log of the messages that
    were handed to it. *)

From Stdlib Require Import ZArith QArith Qabs Qround Lia Lqa.
From Stdlib Require PrimFloat Uint63.
From stdpp Require Import gmap strings list fin_maps sorting.

Local Open Scope Z_scope.

(** ** Python dictionaries and lists *)

(** A dict display [{k1: v1, k2: v2, ...}]: entries are stored left to
    right, a later entry overriding an earlier one with the same key. *)
Definition dict `{Countable K} {V} (entries : list (K * V)) : gmap K V :=
  foldl (fun m kv => <[kv.1 := kv.2]> m) ∅ entries.

(** [l[i] = x] on a Python list: indices [0 .. len-1] address from the
    front, [-len .. -1] from the back, anything else is an [IndexError]
    (here [None]). *)
Definition list_setitem {A} (l : list A) (i : Z) (x : A) : option (list A) :=
  let n := Z.of_nat (length l) in
  if decide (0 <= i < n) then Some (<[Z.to_nat i := x]> l)
  else if decide (- n <= i < 0) then Some (<[Z.to_nat (n + i) := x]> l)
  else None.

(** ** The device profile tables *)

(** Microsoft X-Box 360 pad *)
Definition XINPUT_CODE_MAP : gmap string Z := dict [
  ("ABS_X", 0); ("ABS_Y", 1); ("ABS_Z", 2); ("ABS_RX", 3); ("ABS_RY", 4);
  ("ABS_RZ", 5); ("ABS_HAT0X", 6); ("ABS_HAT0Y", 7);
  ("BTN_SOUTH", 0); ("BTN_EAST", 1); ("BTN_WEST", 2); ("BTN_NORTH", 3);
  ("BTN_TL", 4); ("BTN_TR", 5); ("BTN_START", 6); ("BTN_SELECT", 7);
  ("BTN_MODE", 8); ("BTN_THUMBL", 9); ("BTN_THUMBR", 10) ].

Definition XINPUT_VALUE_MAP : gmap Z (Z * Z) := dict [
  (0, (-32768, 32767)); (1, (32767, -32768)); (2, (0, 255));
  (3, (-32768, 32767)); (4, (32767, -32768)); (5, (0, 255));
  (6, (-1, 1)); (7, (-1, 1)) ].

(** Sony Computer Entertainment Wireless Controller *)
Definition PS4_CODE_MAP : gmap string Z := dict [
  ("ABS_X", 0); ("ABS_Y", 1); ("ABS_RX", 2); ("ABS_Z", 3); ("ABS_RZ", 4);
  ("ABS_RY", 5); ("ABS_HAT0X", 6); ("ABS_HAT0Y", 7);
  ("BTN_EAST", 0); ("BTN_C", 1); ("BTN_SOUTH", 2); ("BTN_NORTH", 3);
  ("BTN_WEST", 4); ("BTN_Z", 5); ("BTN_TL2", 6); ("BTN_TR2", 7);
  ("BTN_MODE", 8); ("BTN_SELECT", 9); ("BTN_START", 10) ].

Definition PS4_VALUE_MAP : gmap Z (Z * Z) := dict [
  (0, (0, 255)); (1, (0, 255)); (2, (0, 255)); (3, (0, 255));
  (4, (0, 255)); (5, (0, 255)); (6, (-1, 1)); (7, (-1, 1)) ].

(** Logitech Gamepad F710 *)
Definition F710_CODE_MAP : gmap string Z := dict [
  ("ABS_X", 0); ("ABS_Y", 1); ("ABS_Z", 2); ("ABS_RX", 3); ("ABS_RY", 4);
  ("ABS_RZ", 5); ("ABS_HAT0X", 6); ("ABS_HAT0Y", 7);
  ("BTN_SOUTH", 0); ("BTN_EAST", 1); ("BTN_NORTH", 2); ("BTN_WEST", 3);
  ("BTN_TL", 4); ("BTN_TR", 5); ("BTN_SELECT", 6); ("BTN_START", 7);
  ("BTN_MODE", 8); ("BTN_THUMBL", 9); ("BTN_THUMBR", 10) ].

Definition F710_VALUE_MAP : gmap Z (Z * Z) := dict [
  (0, (-32768, 32767)); (1, (-32768, 32767)); (2, (0, 255));
  (3, (-32768, 32767)); (4, (-32768, 32767)); (5, (0, 255));
  (6, (-1, 1)); (7, (-1, 1)) ].

(** Microsoft X-Box One pad *)
Definition XONE_CODE_MAP : gmap string Z := dict [
  ("ABS_X", 0); ("ABS_Y", 1); ("ABS_Z", 2); ("ABS_RX", 3); ("ABS_RY", 4);
  ("ABS_RZ", 5); ("ABS_HAT0X", 6); ("ABS_HAT0Y", 7);
  ("BTN_SOUTH", 0); ("BTN_EAST", 1); ("BTN_NORTH", 2); ("BTN_WEST", 3);
  ("BTN_TL", 4); ("BTN_TR", 5); ("BTN_SELECT", 6); ("BTN_START", 7);
  ("BTN_MODE", 8); ("BTN_THUMBL", 9); ("BTN_THUMBR", 10) ].

Definition XONE_VALUE_MAP : gmap Z (Z * Z) := dict [
  (0, (-32768, 32767)); (1, (-32768, 32767)); (2, (0, 1023));
  (3, (-32768, 32767)); (4, (-32768, -32767)); (5, (0, 1023));
  (6, (-1, 1)); (7, (-1, 1)) ].

(** Microsoft X-Box One S pad *)
Definition XONE_S_CODE_MAP : gmap string Z := XONE_CODE_MAP.

Definition XONE_S_VALUE_MAP : gmap Z (Z * Z) := dict [
  (0, (-32768, 32767)); (1, (-32768, 32767)); (2, (-1023, 1023));
  (3, (-32768, 32767)); (4, (-32768, 32767)); (5, (-1023, 1023));
  (6, (-1, 1)); (7, (-1, 1)) ].

Definition JOYSTICK_CODE_VALUE_MAP
  : gmap string (gmap string Z * gmap Z (Z * Z)) := dict [
  ("Microsoft X-Box 360 pad", (XINPUT_CODE_MAP, XINPUT_VALUE_MAP));
  ("Sony Computer Entertainment Wireless Controller",
     (PS4_CODE_MAP, PS4_VALUE_MAP));
  ("Logitech Gamepad F710", (F710_CODE_MAP, F710_VALUE_MAP));
  ("Microsoft X-Box One pad", (XONE_CODE_MAP, XONE_VALUE_MAP));
  ("Microsoft X-Box One S pad", (XONE_S_CODE_MAP, XONE_S_VALUE_MAP)) ].

(** ** Events, messages and the node *)

(** An event of the [inputs] library, with the attributes [run_one]
    reads: [event.device.name], [event.ev_type], [event.code] and
    [event.state]. *)
Record InputEvent := {
  device_name : string;
  ev_type : string;
  code : string;
  state : Z
}.

(** [sensor_msgs/Joy] with its [std_msgs/Header]. *)
Record Joy := {
  stamp_sec : Z;
  stamp_nanosec : Z;
  frame_id : string;
  axes : list Q;
  buttons : list Z
}.

(** What iterating over [devices.gamepads[0]] yields during one call of
    [run_one]: the events that are ready, after which the iterator either
    stops or fails with an [OSError]. *)
Record GamePad := {
  pending : list InputEvent;
  read_fails : bool
}.

(** The node together with the part of the world it touches: [wall n] is
    the value returned by the [n]-th call of [time.time()], [reads] counts
    the calls made so far, [published] lists the messages passed to
    [publisher_.publish], oldest first. *)
Record JoystickRos2 := {
  deadzone : Q;
  autorepeat_rate : Q;
  coalesce_interval : Q;
  joy : Joy;
  last_event : option InputEvent;
  last_publish_time : Q;
  published : list Joy;
  wall : nat -> Q;
  reads : nat
}.

Definition DEFAULT_DEADZONE : Q := 5 # 100.
Definition DEFAULT_AUTOREPEAT_RATE : Q := 0.
Definition DEFAULT_COALESCE_INTERVAL : Q := 1 # 1000.
Definition DEFAULT_SLEEP_TIME : Q := 1 # 100.

(** ** Exceptions and the method monad *)

Inductive exn := KeyError | IndexError | ZeroDivisionError | OSError.

#[global] Instance exn_eq_dec : EqDecision exn.
Proof. solve_decision. Defined.

(** A method call either returns a value or raises; both leave a node
    behind, since assignments made before a [raise] stay in effect. *)
Inductive outcome (A : Type) :=
  | Ret (a : A) (self : JoystickRos2)
  | Raise (e : exn) (self : JoystickRos2).
Arguments Ret {A} a self.
Arguments Raise {A} e self.

Definition M (A : Type) : Type := JoystickRos2 -> outcome A.

#[global] Instance M_ret : MRet M := fun A a self => Ret a self.
#[global] Instance M_bind : MBind M := fun A B f m self =>
  match m self with
  | Ret a self' => f a self'
  | Raise e self' => Raise e self'
  end.

Definition raise {A} (e : exn) : M A := fun self => Raise e self.
Definition get : M JoystickRos2 := fun self => Ret self self.
Definition put (self' : JoystickRos2) : M unit := fun _ => Ret tt self'.

(** [try: body except e: pass] *)
Definition try_except_pass (body : M unit) (e : exn) : M unit := fun self =>
  match body self with
  | Ret a self' => Ret a self'
  | Raise e' self' =>
      if decide (e' = e) then Ret tt self' else Raise e' self'
  end.

(** Field assignments. *)
Definition set_joy (j : Joy) (self : JoystickRos2) : JoystickRos2 :=
  {| deadzone := deadzone self; autorepeat_rate := autorepeat_rate self;
     coalesce_interval := coalesce_interval self; joy := j;
     last_event := last_event self;
     last_publish_time := last_publish_time self;
     published := published self; wall := wall self; reads := reads self |}.

Definition set_last_event (e : option InputEvent) (self : JoystickRos2)
  : JoystickRos2 :=
  {| deadzone := deadzone self; autorepeat_rate := autorepeat_rate self;
     coalesce_interval := coalesce_interval self; joy := joy self;
     last_event := e;
     last_publish_time := last_publish_time self;
     published := published self; wall := wall self; reads := reads self |}.

Definition set_last_publish_time (t : Q) (self : JoystickRos2)
  : JoystickRos2 :=
  {| deadzone := deadzone self; autorepeat_rate := autorepeat_rate self;
     coalesce_interval := coalesce_interval self; joy := joy self;
     last_event := last_event self;
     last_publish_time := t;
     published := published self; wall := wall self; reads := reads self |}.

Definition set_stamp (s ns : Z) (j : Joy) : Joy :=
  {| stamp_sec := s; stamp_nanosec := ns; frame_id := frame_id j;
     axes := axes j; buttons := buttons j |}.

Definition set_axes (a : list Q) (j : Joy) : Joy :=
  {| stamp_sec := stamp_sec j; stamp_nanosec := stamp_nanosec j;
     frame_id := frame_id j; axes := a; buttons := buttons j |}.

Definition set_buttons (b : list Z) (j : Joy) : Joy :=
  {| stamp_sec := stamp_sec j; stamp_nanosec := stamp_nanosec j;
     frame_id := frame_id j; axes := axes j; buttons := b |}.

(** ** The world: clock and publisher *)

(** [time.time()] *)
Definition time_time : M Q := fun self =>
  Ret (wall self (reads self))
      {| deadzone := deadzone self; autorepeat_rate := autorepeat_rate self;
         coalesce_interval := coalesce_interval self; joy := joy self;
         last_event := last_event self;
         last_publish_time := last_publish_time self;
         published := published self; wall := wall self;
         reads := S (reads self) |}.

(** [self.publisher_.publish(msg)] *)
Definition publisher_publish (msg : Joy) : M unit := fun self =>
  Ret tt
      {| deadzone := deadzone self; autorepeat_rate := autorepeat_rate self;
         coalesce_interval := coalesce_interval self; joy := joy self;
         last_event := last_event self;
         last_publish_time := last_publish_time self;
         published := published self ++ [msg]; wall := wall self;
         reads := reads self |}.

(** [int(x)] on a float: truncation towards zero. *)
Definition int (x : Q) : Z := Z.quot (Qnum x) (Zpos (Qden x)).

(** [math.modf(x)]: the fractional and the integer part of [x], both with
    the sign of [x]. *)
Definition modf (x : Q) : Q * Q :=
  let whole := inject_Z (int x) in ((x - whole)%Q, whole).

(** ** The node's methods *)

Definition JoystickRos2_init (dz rate coalesce : Q) (clock : nat -> Q)
  : JoystickRos2 :=
  {| deadzone := dz; autorepeat_rate := rate; coalesce_interval := coalesce;
     joy := {| stamp_sec := 0; stamp_nanosec := 0; frame_id := "";
               axes := [0; 0; 0; 0; 0; 0; 0; 0]%Q;
               buttons := [0; 0; 0; 0; 0; 0; 0; 0; 0; 0; 0] |};
     last_event := None;
     last_publish_time := 0;
     published := [];
     wall := clock; reads := 0%nat |}.

Definition publish_joy : M unit :=
  now ← time_time;
  let current_time := modf now in
  self ← get;
  put (set_joy (set_stamp (int (current_time.2))
                 (Z.land (int (current_time.1 * 1000000000)) 0xffffffff)
                 (joy self)) self);;
  self ← get;
  publisher_publish (joy self);;
  now ← time_time;
  self ← get;
  put (set_last_publish_time now self).

(** The local variable [normalized] of [normalize_key_value]; [None] is
    the [ZeroDivisionError] of the division. *)
Definition normalized (key_value_min key_value_max key_value : Z)
  : option Q :=
  if decide (key_value_max - key_value_min = 0) then None
  else Some (inject_Z (key_value - key_value_min)
               / inject_Z (key_value_max - key_value_min)
               * inject_Z (-2) + 1)%Q.

Definition normalize_key_value (dz : Q)
    (key_value_min key_value_max key_value : Z) : option Q :=
  match normalized key_value_min key_value_max key_value with
  | None => None
  | Some n => if Qlt_le_dec dz (Qabs n) then Some n else Some 0%Q
  end.

(** The body of the [for event in gamepad] loop. *)
Definition handle_event (event : InputEvent) : M unit :=
  match JOYSTICK_CODE_VALUE_MAP !! device_name event with
  | None => raise KeyError
  | Some (code_map, value_map) =>
    match code_map !! code event with
    | None => mret tt
    | Some key_code =>
      if String.eqb (ev_type event) "Key" then
        self ← get;
        match list_setitem (buttons (joy self)) key_code (state event) with
        | None => raise IndexError
        | Some b =>
            put (set_joy (set_buttons b (joy self)) self);;
            publish_joy;;
            self ← get;
            put (set_last_event (Some event) self)
        end
      else if String.eqb (ev_type event) "Absolute" then
        match value_map !! key_code with
        | None => raise KeyError
        | Some value_range =>
          self ← get;
          match normalize_key_value (deadzone self)
                  value_range.1 value_range.2 (state event) with
          | None => raise ZeroDivisionError
          | Some v =>
            match list_setitem (axes (joy self)) key_code v with
            | None => raise IndexError
            | Some a =>
              put (set_joy (set_axes a (joy self)) self);;
              self ← get;
              (match last_event self with
               | None => publish_joy
               | Some last =>
                 if negb (String.eqb (code last) (code event))
                 then publish_joy
                 else
                   now ← time_time;
                   self ← get;
                   if Qlt_le_dec (coalesce_interval self)
                                 (now - last_publish_time self)
                   then publish_joy
                   else mret tt
               end);;
              self ← get;
              put (set_last_event (Some event) self)
            end
          end
        end
      else mret tt
    end
  end.

(** [for event in gamepad: ...] *)
Fixpoint for_events (events : list InputEvent) (fails : bool) : M unit :=
  match events with
  | [] => if fails then raise OSError else mret tt
  | event :: rest => handle_event event;; for_events rest fails
  end.

(** The autorepeat test that closes [run_one]. *)
Definition autorepeat : M unit :=
  self ← get;
  if Qlt_le_dec 0 (autorepeat_rate self) then
    now ← time_time;
    self ← get;
    if Qlt_le_dec (1 / autorepeat_rate self) (now - last_publish_time self)
    then publish_joy
    else mret tt
  else mret tt.

(** [run_one], called with the current contents of [devices.gamepads]. *)
Definition run_one (gamepads : list GamePad) : M unit :=
  match gamepads with
  | [] => mret tt
  | gamepad :: _ =>
      try_except_pass
        (for_events (pending gamepad) (read_fails gamepad)) OSError;;
      autorepeat
  end.

(** A run of the dispatch timer: one call of [run_one] per tick. *)
Fixpoint spin (ticks : list (list GamePad)) : M unit :=
  match ticks with
  | [] => mret tt
  | gamepads :: rest => run_one gamepads;; spin rest
  end.

(** ** Vocabulary of the properties *)

(** Event codes of the Linux input layer: [EV_ABS] events carry [ABS_*]
    codes, [EV_KEY] events carry [BTN_*] (or [KEY_*]) codes. *)
Definition is_axis_code (c : string) : bool := String.prefix "ABS_" c.
Definition is_button_code (c : string) : bool := String.prefix "BTN_" c.

(** One entry [c: k] of a code map, checked against the profile's value
    map and the sizes of [joy.axes] (8) and [joy.buttons] (11). *)
Definition entry_ok (value_map : gmap Z (Z * Z)) (c : string) (k : Z)
  : bool :=
  if is_axis_code c then
    bool_decide (0 <= k < 8) &&
    match value_map !! k with
    | Some (lo, hi) => negb (lo =? hi)
    | None => false
    end
  else is_button_code c && bool_decide (0 <= k < 11).

Definition profile_ok (p : gmap string Z * gmap Z (Z * Z)) : bool :=
  bool_decide (map_Forall (fun c k => entry_ok p.2 c k = true) p.1).

(** The event comes from a registered model, and if [run_one] resolves
    its code on the [Absolute] branch, the code is an axis code. *)
Definition well_kinded (event : InputEvent) : bool :=
  match JOYSTICK_CODE_VALUE_MAP !! device_name event with
  | None => false
  | Some (code_map, _) =>
      match code_map !! code event with
      | None => true
      | Some _ =>
          if String.eqb (ev_type event) "Absolute"
          then is_axis_code (code event) else true
      end
  end.

(** The code of the event is a key of the code map of its device. *)
Definition recognized (event : InputEvent) : Prop :=
  exists code_map value_map,
    JOYSTICK_CODE_VALUE_MAP !! device_name event = Some (code_map, value_map)
    /\ is_Some (code_map !! code event).

Definition axis_event (event : InputEvent) : Prop :=
  ev_type event = "Absolute" /\ is_axis_code (code event) = true.

Definition button_event (event : InputEvent) : Prop :=
  ev_type event = "Key".

(** The state buffer has the shape [__init__] gives it. *)
Definition wf_node (self : JoystickRos2) : Prop :=
  length (axes (joy self)) = 8%nat /\ length (buttons (joy self)) = 11%nat.

(** The tunables and the clock are the same in both nodes. *)
Definition same_setup (self self' : JoystickRos2) : Prop :=
  deadzone self' = deadzone self /\
  autorepeat_rate self' = autorepeat_rate self /\
  coalesce_interval self' = coalesce_interval self /\
  wall self' = wall self.

Definition node_of {A} (o : outcome A) : JoystickRos2 :=
  match o with Ret _ self => self | Raise _ self => self end.

(** The condition under which the design document lets an axis event
    publish: no event recorded yet, or the recorded event has another
    code, or more than [coalesce_interval] has passed since the last
    publish.  The current time is the next reading of the clock. *)
Definition axis_publish_condition (self : JoystickRos2) (event : InputEvent)
  : Prop :=
  last_event self = None \/
  (exists last, last_event self = Some last /\ code last <> code event) \/
  (coalesce_interval self < wall self (reads self) - last_publish_time self)%Q.

(** The condition of the autorepeat publish. *)
Definition autorepeat_condition (self : JoystickRos2) : Prop :=
  (0 < autorepeat_rate self)%Q /\
  (1 / autorepeat_rate self
     < wall self (reads self) - last_publish_time self)%Q.

(** The message [publish_joy] sends when the clock reads [now], and the
    node it leaves behind. *)
Definition stamped (now : Q) (j : Joy) : Joy :=
  set_stamp (int (modf now).2)
    (Z.land (int ((modf now).1 * 1000000000)) 0xffffffff) j.

Definition after_publish (self : JoystickRos2) : JoystickRos2 :=
  {| deadzone := deadzone self; autorepeat_rate := autorepeat_rate self;
     coalesce_interval := coalesce_interval self;
     joy := stamped (wall self (reads self)) (joy self);
     last_event := last_event self;
     last_publish_time := wall self (S (reads self));
     published :=
       published self ++ [stamped (wall self (reads self)) (joy self)];
     wall := wall self; reads := S (S (reads self)) |}.

(** A tick on which no event is ready: no gamepad at all, or a gamepad
    whose iteration yields nothing. *)
Definition idle (gamepads : list GamePad) : Prop :=
  match gamepads with
  | [] => True
  | gamepad :: _ => pending gamepad = []
  end.

(** A time stamp a subscriber can accept: nanoseconds below one second. *)
Definition nanosec_ok (msg : Joy) : Prop :=
  0 <= stamp_nanosec msg < 1000000000.

(** [self'] is reached from [self] by publishing: the clock is the same
    and every message sent in between was stamped by [publish_joy] from
    one of its readings. *)
Definition stamps_from (self self' : JoystickRos2) : Prop :=
  wall self' = wall self /\
  exists msgs,
    published self' = published self ++ msgs /\
    Forall (fun msg => exists n j, msg = stamped (wall self n) j) msgs.

(** The events that may come before the first recognised axis event:
    well-kinded ones that resolve to nothing or carry a code that is not
    an axis code. *)
Definition before_first_axis (event : InputEvent) : bool :=
  well_kinded event &&
  match JOYSTICK_CODE_VALUE_MAP !! device_name event with
  | None => false
  | Some (code_map, _) =>
      match code_map !! code event with
      | None => true
      | Some _ => negb (is_axis_code (code event))
      end
  end.

(** A tick whose events, if any, may all come before the first recognised
    axis event. *)
Definition before_first_axis_tick (gamepads : list GamePad) : Prop :=
  match gamepads with
  | [] => True
  | gamepad :: _ =>
      Forall (fun e => before_first_axis e = true) (pending gamepad)
  end.

(** No axis code has been recorded as the tracker's last event. *)
Definition no_axis_recorded (self : JoystickRos2) : Prop :=
  forall last, last_event self = Some last -> is_axis_code (code last) = false.

(** Boolean form of [recognized]. *)
Definition recognizedb (event : InputEvent) : bool :=
  match JOYSTICK_CODE_VALUE_MAP !! device_name event with
  | None => false
  | Some (code_map, _) => bool_decide (is_Some (code_map !! code event))
  end.

(** ** The normaliser with rounding *)

(** Python floats are binary64 numbers and each float operation rounds.
    [normalized_with rnd] is the local value [normalized] with the result
    of the division, of the multiplication by [-2] and of the addition of
    [1] passed through [rnd]; with the identity for [rnd] it is
    [normalized]. *)
Definition normalized_with (rnd : Q -> Q)
    (key_value_min key_value_max key_value : Z) : option Q :=
  if decide (key_value_max - key_value_min = 0) then None
  else Some (rnd (rnd (rnd (inject_Z (key_value - key_value_min)
                             / inject_Z (key_value_max - key_value_min))
                       * inject_Z (-2)) + 1))%Q.

(** A coarse rounding: down to the next multiple of [1/1024]. *)
Definition round_to_grid (x : Q) : Q :=
  (inject_Z (Qfloor (x * 1024)) / 1024)%Q.

(** The same computation on the kernel's binary64 floats. *)
Module Binary64.

(** [float(z)] for a Python integer below [2^53] in absolute value. *)
Definition of_int (z : Z) : PrimFloat.float :=
  match z with
  | Z0 => PrimFloat.zero
  | Zpos _ => PrimFloat.of_uint63 (Uint63.of_Z z)
  | Zneg p => PrimFloat.opp (PrimFloat.of_uint63 (Uint63.of_Z (Zpos p)))
  end.

Definition normalized_b64 (key_value_min key_value_max key_value : Z)
  : option PrimFloat.float :=
  if decide (key_value_max - key_value_min = 0) then None
  else Some (PrimFloat.add
               (PrimFloat.mul
                  (PrimFloat.div (of_int (key_value - key_value_min))
                                 (of_int (key_value_max - key_value_min)))
                  (of_int (-2)))
               (of_int 1)).

Definition in_unit_interval (o : option PrimFloat.float) : bool :=
  match o with
  | None => false
  | Some x => PrimFloat.leb (of_int (-1)) x && PrimFloat.leb x (of_int 1)
  end.

Definition is_float (x : PrimFloat.float) (o : option PrimFloat.float)
  : bool :=
  match o with
  | None => false
  | Some y => PrimFloat.eqb x y
  end.

(** The range [(lo, hi)] sends [lo] to [1.0], [hi] to [-1.0] and every
    integer between them into [[-1.0, 1.0]]. *)
Definition range_ok (lo hi : Z) : bool :=
  is_float (of_int 1) (normalized_b64 lo hi lo) &&
  is_float (of_int (-1)) (normalized_b64 lo hi hi) &&
  snd (Pos.iter (fun '(v, ok) =>
                   (v + 1, ok && in_unit_interval (normalized_b64 lo hi v)))
                (Z.min lo hi, true) (Z.to_pos (Z.abs (hi - lo) + 1))).

Definition registry_ranges_ok : bool :=
  bool_decide (map_Forall (fun _ p =>
    map_Forall (fun _ r => range_ok r.1 r.2 = true) (p.2 : gmap Z (Z * Z)))
    JOYSTICK_CODE_VALUE_MAP).

(** [current_time[0] * 1000000000] for the largest fraction below one. *)
Definition largest_scaled_fraction : PrimFloat.float :=
  PrimFloat.mul (PrimFloat.next_down (of_int 1)) (of_int 1000000000).

End Binary64.

(** ** Sample inputs *)

(** A clock that advances by a tenth of a millisecond, respectively by ten
    milliseconds, between two readings. *)
Definition fast_clock (n : nat) : Q :=
  1700000000 + inject_Z (Z.of_nat n) * (1 # 10000).
Definition slow_clock (n : nat) : Q :=
  1700000000 + inject_Z (Z.of_nat n) * (1 # 100).

Definition default_node (clock : nat -> Q) : JoystickRos2 :=
  JoystickRos2_init DEFAULT_DEADZONE DEFAULT_AUTOREPEAT_RATE
    DEFAULT_COALESCE_INTERVAL clock.

Definition stick_x (raw : Z) : InputEvent :=
  {| device_name := "Microsoft X-Box 360 pad"; ev_type := "Absolute";
     code := "ABS_X"; state := raw |}.

Definition stick_y (raw : Z) : InputEvent :=
  {| device_name := "Microsoft X-Box 360 pad"; ev_type := "Absolute";
     code := "ABS_Y"; state := raw |}.

Definition button_south (raw : Z) : InputEvent :=
  {| device_name := "Microsoft X-Box 360 pad"; ev_type := "Key";
     code := "BTN_SOUTH"; state := raw |}.

Definition button_east (raw : Z) : InputEvent :=
  {| device_name := "Microsoft X-Box 360 pad"; ev_type := "Key";
     code := "BTN_EAST"; state := raw |}.

Definition dpad_up (raw : Z) : InputEvent :=
  {| device_name := "Microsoft X-Box 360 pad"; ev_type := "Key";
     code := "BTN_DPAD_UP"; state := raw |}.

Definition quiet_pad : GamePad := {| pending := []; read_fails := false |}.

(** ** Device detection *)

Inductive warning := No_joystick_found | Joystick_not_supported.

(** [detect_devices], given the names of [devices.gamepads] as
    [devices.find_devices()] leaves them: the warning it logs, if any.  It
    changes nothing in the node. *)
Definition detect_devices (gamepad_names : list string) : option warning :=
  match gamepad_names with
  | [] => Some No_joystick_found
  | name :: _ =>
      match JOYSTICK_CODE_VALUE_MAP !! name with
      | None => Some Joystick_not_supported
      | Some _ => None
      end
  end.

(** ** Further vocabulary *)

(** Every range of a value map has distinct ends and sits at an index
    below 8. *)
Definition value_map_ok (p : gmap string Z * gmap Z (Z * Z)) : bool :=
  bool_decide (map_Forall (fun k r =>
    (bool_decide (0 <= k < 8) && negb (r.1 =? r.2 : bool)) = true)
    (p.2 : gmap Z (Z * Z))).

(** Lengths of the state buffer, tunables, clock and frame id agree. *)
Definition keeps_shape (self self' : JoystickRos2) : Prop :=
  length (axes (joy self')) = length (axes (joy self)) /\
  length (buttons (joy self')) = length (buttons (joy self)) /\
  frame_id (joy self') = frame_id (joy self) /\
  same_setup self self' /\
  (reads self <= reads self')%nat.

(** The raw state of a recognised [Absolute] event lies between the ends
    of the range the profile declares for its axis. *)
Definition in_declared_range (event : InputEvent) : bool :=
  match JOYSTICK_CODE_VALUE_MAP !! device_name event with
  | None => true
  | Some (code_map, value_map) =>
      match code_map !! code event with
      | None => true
      | Some key_code =>
          if String.eqb (ev_type event) "Absolute" then
            match value_map !! key_code with
            | None => true
            | Some (lo, hi) =>
                ((lo <=? state event) && (state event <=? hi)) ||
                ((hi <=? state event) && (state event <=? lo))
            end
          else true
      end
  end.

Definition axes_in_unit_interval (self : JoystickRos2) : Prop :=
  Forall (fun a => (-1 <= a <= 1)%Q) (axes (joy self)).

(** Recognised [Key] events, and recognised [Key] or [Absolute] events. *)
Definition is_key_input (event : InputEvent) : bool :=
  recognizedb event && String.eqb (ev_type event) "Key".

Definition is_tracked_input (event : InputEvent) : bool :=
  recognizedb event &&
  (String.eqb (ev_type event) "Key" || String.eqb (ev_type event) "Absolute").

Definition count_events (f : InputEvent -> bool) (events : list InputEvent)
  : nat :=
  length (List.filter f events).

(** The time stamp of a message in nanoseconds. *)
Definition stamp_ns (msg : Joy) : Z :=
  stamp_sec msg * 1000000000 + stamp_nanosec msg.

Definition xone_right_stick_y (raw : Z) : InputEvent :=
  {| device_name := "Microsoft X-Box One pad"; ev_type := "Absolute";
     code := "ABS_RY"; state := raw |}.

(** The axes of the state buffer and of every published message lie in
    [[-1, 1]]. *)
Definition unit_interval_kept (self : JoystickRos2) : Prop :=
  axes_in_unit_interval self /\
  Forall (fun msg => Forall (fun a => (-1 <= a <= 1)%Q) (axes msg))
         (published self).

(** The time stamps of the published messages do not decrease, and each
    message was stamped from a reading of [clock] already taken. *)
Definition stamps_in_order (clock : nat -> Q) (self : JoystickRos2) : Prop :=
  wall self = clock /\
  StronglySorted Z.le (map stamp_ns (published self)) /\
  Forall (fun msg => exists n j,
            (n < reads self)%nat /\ msg = stamped (clock n) j)
         (published self).

(** The tracker's last event after a list of events: the latest recognised
    [Key] or [Absolute] event, or what it was before. *)
Definition tracked_after (events : list InputEvent)
    (previous : option InputEvent) : option InputEvent :=
  foldl (fun acc e => if is_tracked_input e then Some e else acc)
        previous events.

(** Button values 0 and 1. *)
Definition binary (b : Z) : Prop := b = 0 \/ b = 1.

(** The buttons of the state buffer and of every published message are 0
    or 1. *)
Definition buttons_binary (self : JoystickRos2) : Prop :=
  Forall binary (buttons (joy self)) /\
  Forall (fun msg => Forall binary (buttons msg)) (published self).

(** Further sample inputs. *)
Definition generic_button (raw : Z) : InputEvent :=
  {| device_name := "Generic USB Joystick"; ev_type := "Key";
     code := "BTN_SOUTH"; state := raw |}.

Definition busy_pad : GamePad :=
  {| pending := [button_south 1; stick_x 5]; read_fails := false |}.

Definition broken_pad : GamePad :=
  {| pending := [button_south 1; generic_button 1; stick_x 5];
     read_fails := false |}.

Definition after_first_stick : JoystickRos2 :=
  node_of (handle_event (stick_x 100) (default_node fast_clock)).

(** ** Publishing and the clock *)

(** Between [self] and [self'] the node kept its publish time in step
    with the publisher: either nothing was sent and [last_publish_time]
    is as before, or the last message sent was stamped from the clock
    reading [k] and [last_publish_time] is the reading right after it. *)
Definition publish_recorded (self self' : JoystickRos2) : Prop :=
  wall self' = wall self /\
  (reads self <= reads self')%nat /\
  ((published self' = published self /\
    last_publish_time self' = last_publish_time self) \/
   exists msgs k j,
     published self' = published self ++ msgs ++ [stamped (wall self k) j] /\
     (reads self <= k)%nat /\ (S k < reads self')%nat /\
     last_publish_time self' = wall self (S k)).

(** ** Rounding errors *)

(** A rounding as accurate as binary64 on the numbers the normaliser
    meets: below [2^34] in absolute value, a binary64 number is at most
    [2^-20] away. *)
Definition binary64_like (rnd : Q -> Q) : Prop :=
  forall x, (Qabs x <= 17179869184)%Q -> (Qabs (rnd x - x) <= 1 # 1048576)%Q.

(** Rounding down to the next multiple of [2^-20]. *)
Definition round_to_fine_grid (x : Q) : Q :=
  (inject_Z (Qfloor (x * 1048576)) / 1048576)%Q.

(** The nanosecond field of [publish_joy] with the product
    [current_time[0] * 1000000000] passed through [rnd]. *)
Definition nanosec_with (rnd : Q -> Q) (now : Q) : Z :=
  Z.land (int (rnd ((modf now).1 * 1000000000)%Q)) 0xffffffff.

(** A rounding that is monotone and leaves the integers from 0 to
    [bound] alone, as rounding to the nearest binary64 number does for
    every [bound] up to [2^53]. *)
Definition rounds_integers_exactly (bound : Z) (rnd : Q -> Q) : Prop :=
  (forall x y, (x <= y)%Q -> (rnd x <= rnd y)%Q) /\
  forall z : Z, 0 <= z <= bound -> (rnd (inject_Z z) == inject_Z z)%Q.

Module Binary64Examples.

(** The binary64 number nearest to three tenths, its mantissa and
    exponent, and the product [publish_joy] forms from it. *)
Definition three_tenths : PrimFloat.float :=
  PrimFloat.div (Binary64.of_int 3) (Binary64.of_int 10).

Definition mantissa (x : PrimFloat.float) : Z :=
  Uint63.to_Z (PrimFloat.normfr_mantissa (fst (PrimFloat.frshiftexp x))).

(** [frshiftexp] returns the exponent shifted by 2101. *)
Definition exponent (x : PrimFloat.float) : Z :=
  Uint63.to_Z (snd (PrimFloat.frshiftexp x)) - 2101.

Definition scaled_three_tenths : PrimFloat.float :=
  PrimFloat.mul three_tenths (Binary64.of_int 1000000000).

Definition opposite (a b : option PrimFloat.float) : bool :=
  match a, b with
  | Some x, Some y => PrimFloat.eqb x (PrimFloat.opp y)
  | _, _ => false
  end.

End Binary64Examples.

(** * Properties *)

(** ** Basic facts about the monad and the world *)

Ltac run_monad :=
  cbv [mbind M_bind mret M_ret get put raise time_time publisher_publish].

(** Reduce field reads of nodes and messages built by the setters. *)
Ltac read_fields :=
  cbn [deadzone autorepeat_rate coalesce_interval joy last_event
       last_publish_time published wall reads axes buttons stamp_sec
       stamp_nanosec frame_id set_joy set_last_event set_last_publish_time
       set_stamp set_axes set_buttons after_publish stamped node_of
       time_time].

Lemma publish_joy_eq (self : JoystickRos2) :
  publish_joy self = Ret tt (after_publish self).
Proof. reflexivity. Qed.

Lemma same_setup_refl self : same_setup self self.
Proof. by unfold same_setup. Qed.

Lemma same_setup_trans s1 s2 s3 :
  same_setup s1 s2 -> same_setup s2 s3 -> same_setup s1 s3.
Proof. unfold same_setup. intros (?&?&?&?) (?&?&?&?). repeat split; congruence. Qed.

Lemma list_setitem_in_range {A} (l : list A) (i : Z) (x : A) :
  0 <= i < Z.of_nat (length l) ->
  list_setitem l i x = Some (<[Z.to_nat i := x]> l).
Proof. intros Hi. unfold list_setitem. by rewrite decide_True. Qed.

(** ** The registry *)

Lemma registry_ok :
  map_Forall (fun _ p => profile_ok p = true) JOYSTICK_CODE_VALUE_MAP.
Proof. compute_done. Qed.

Lemma registry_entry name code_map value_map c k :
  JOYSTICK_CODE_VALUE_MAP !! name = Some (code_map, value_map) ->
  code_map !! c = Some k ->
  entry_ok value_map c k = true.
Proof.
  intros Hreg Hc.
  pose proof (registry_ok name _ Hreg) as Hp.
  unfold profile_ok in Hp. apply bool_decide_eq_true in Hp.
  exact (Hp c k Hc).
Qed.

Lemma registry_axis name code_map value_map c k :
  JOYSTICK_CODE_VALUE_MAP !! name = Some (code_map, value_map) ->
  code_map !! c = Some k ->
  is_axis_code c = true ->
  0 <= k < 8 /\
  exists lo hi, value_map !! k = Some (lo, hi) /\ lo <> hi.
Proof.
  intros Hreg Hc Hax.
  pose proof (registry_entry _ _ _ _ _ Hreg Hc) as He.
  unfold entry_ok in He. rewrite Hax in He.
  apply andb_true_iff in He as [Hk Hv].
  apply bool_decide_eq_true in Hk. split; [exact Hk|].
  destruct (value_map !! k) as [[lo hi]|]; [|discriminate].
  exists lo, hi. split; [reflexivity|].
  apply negb_true_iff, Z.eqb_neq in Hv. exact Hv.
Qed.

Lemma registry_index name code_map value_map c k :
  JOYSTICK_CODE_VALUE_MAP !! name = Some (code_map, value_map) ->
  code_map !! c = Some k ->
  0 <= k < 11.
Proof.
  intros Hreg Hc.
  pose proof (registry_entry _ _ _ _ _ Hreg Hc) as He.
  unfold entry_ok in He. destruct (is_axis_code c).
  - apply andb_true_iff in He as [Hk _].
    apply bool_decide_eq_true in Hk. lia.
  - apply andb_true_iff in He as [_ Hk].
    apply bool_decide_eq_true in Hk. exact Hk.
Qed.

(** ** One event at a time *)

(** The node after a recognised [Key] event. *)
Lemma handle_key_event self event code_map value_map key_code :
  JOYSTICK_CODE_VALUE_MAP !! device_name event = Some (code_map, value_map) ->
  code_map !! code event = Some key_code ->
  button_event event ->
  0 <= key_code < Z.of_nat (length (buttons (joy self))) ->
  handle_event event self =
    Ret tt (set_last_event (Some event)
              (after_publish
                 (set_joy (set_buttons
                             (<[Z.to_nat key_code := state event]>
                                (buttons (joy self)))
                             (joy self)) self))).
Proof.
  intros Hreg Hcode Hkey Hk. unfold handle_event, button_event in *.
  rewrite Hreg, Hcode, Hkey, String.eqb_refl.
  run_monad. rewrite (list_setitem_in_range _ _ _ Hk). reflexivity.
Qed.

(** The node after a recognised [Absolute] event, following the three
    tests of the publish condition in the order the code makes them (the
    clock is read only by the third). *)
Lemma handle_axis_event self event code_map value_map key_code lo hi v :
  JOYSTICK_CODE_VALUE_MAP !! device_name event = Some (code_map, value_map) ->
  code_map !! code event = Some key_code ->
  ev_type event = "Absolute" ->
  value_map !! key_code = Some (lo, hi) ->
  normalize_key_value (deadzone self) lo hi (state event) = Some v ->
  0 <= key_code < Z.of_nat (length (axes (joy self))) ->
  let stored :=
    set_joy (set_axes (<[Z.to_nat key_code := v]> (axes (joy self)))
                      (joy self)) self in
  handle_event event self =
    Ret tt (set_last_event (Some event)
      match last_event self with
      | None => after_publish stored
      | Some last =>
          if negb (String.eqb (code last) (code event))
          then after_publish stored
          else if Qlt_le_dec (coalesce_interval self)
                    (wall self (reads self) - last_publish_time self)
               then after_publish (node_of (time_time stored))
               else node_of (time_time stored)
      end).
Proof.
  intros Hreg Hcode Hty Hvm Hv Hk stored. unfold handle_event.
  rewrite Hreg, Hcode, Hty. change (String.eqb "Absolute" "Key") with false.
  rewrite String.eqb_refl, Hvm. cbv iota. run_monad. cbn [fst snd].
  rewrite Hv, (list_setitem_in_range _ _ _ Hk). subst stored.
  cbn [last_event set_joy].
  destruct (last_event self) as [last|]; [|reflexivity].
  destruct (negb _); [reflexivity|].
  cbn [coalesce_interval last_publish_time wall reads set_joy].
  destruct (Qlt_le_dec _ _); reflexivity.
Qed.

Lemma normalized_defined (lo hi v : Z) :
  lo <> hi -> is_Some (normalized lo hi v).
Proof.
  intros Hne. unfold normalized.
  destruct (decide (hi - lo = 0)) as [Heq|_]; [lia|]. by eexists.
Qed.

Lemma normalize_key_value_cases (dz : Q) (lo hi v : Z) (n : Q) :
  normalized lo hi v = Some n ->
  normalize_key_value dz lo hi v =
    Some (if Qlt_le_dec dz (Qabs n) then n else 0%Q).
Proof.
  intros Hn. unfold normalize_key_value. rewrite Hn.
  by destruct (Qlt_le_dec dz (Qabs n)).
Qed.

(** Everything a recognised axis event does to a well-formed node. *)
Lemma axis_event_outcome self event :
  wf_node self -> recognized event -> axis_event event ->
  exists self' code_map value_map key_code lo hi n,
    JOYSTICK_CODE_VALUE_MAP !! device_name event
      = Some (code_map, value_map) /\
    code_map !! code event = Some key_code /\
    0 <= key_code < 8 /\
    value_map !! key_code = Some (lo, hi) /\
    normalized lo hi (state event) = Some n /\
    handle_event event self = Ret tt self' /\
    wf_node self' /\ same_setup self self' /\
    last_event self' = Some event /\
    axes (joy self') =
      <[Z.to_nat key_code :=
          if Qlt_le_dec (deadzone self) (Qabs n) then n else 0%Q]>
        (axes (joy self)) /\
    buttons (joy self') = buttons (joy self) /\
    (axis_publish_condition self event /\
       published self' = published self ++ [joy self']
     \/
     ~ axis_publish_condition self event /\
       published self' = published self /\
       last_publish_time self' = last_publish_time self).
Proof.
  intros [Hax Hbt] (code_map & value_map & Hreg & [key_code Hcode]) [Hty Hac].
  destruct (registry_axis _ _ _ _ _ Hreg Hcode Hac)
    as (Hk & lo & hi & Hvm & Hne).
  destruct (normalized_defined lo hi (state event) Hne) as [n Hn].
  pose proof (normalize_key_value_cases (deadzone self) _ _ _ _ Hn) as Hv.
  assert (Hk' : 0 <= key_code < Z.of_nat (length (axes (joy self))))
    by (rewrite Hax; lia).
  pose proof (handle_axis_event _ _ _ _ _ _ _ _ Hreg Hcode Hty Hvm Hv Hk')
    as Hrun.
  cbv zeta in Hrun.
  eexists _, code_map, value_map, key_code, lo, hi, n.
  do 5 (split; [eassumption|]). split; [exact Hrun|].
  unfold axis_publish_condition, wf_node, same_setup.
  destruct (last_event self) as [last|] eqn:Hlast.
  2:{ repeat split; read_fields; rewrite ?length_insert; auto. }
  destruct (String.eqb (code last) (code event)) eqn:Hsame; cbn [negb].
  2:{ apply String.eqb_neq in Hsame.
      repeat split; read_fields; rewrite ?length_insert; auto.
      left. split; [|reflexivity]. right; left. by exists last. }
  apply String.eqb_eq in Hsame.
  destruct (Qlt_le_dec (coalesce_interval self) _) as [Hlt|Hle];
    repeat split; read_fields; rewrite ?length_insert; auto.
  right. repeat split; auto.
  intros [Hnone | [(last' & Heq & Hdiff) | Hlt]].
  - discriminate.
  - congruence.
  - exact (Qle_not_lt _ _ Hle Hlt).
Qed.

(** Everything a recognised button event does to a well-formed node. *)
Lemma button_event_outcome self event :
  wf_node self -> recognized event -> button_event event ->
  exists self' code_map value_map key_code,
    JOYSTICK_CODE_VALUE_MAP !! device_name event
      = Some (code_map, value_map) /\
    code_map !! code event = Some key_code /\
    0 <= key_code < 11 /\
    handle_event event self = Ret tt self' /\
    wf_node self' /\ same_setup self self' /\
    last_event self' = Some event /\
    buttons (joy self') =
      <[Z.to_nat key_code := state event]> (buttons (joy self)) /\
    axes (joy self') = axes (joy self) /\
    published self' = published self ++ [joy self'].
Proof.
  intros [Hax Hbt] (code_map & value_map & Hreg & [key_code Hcode]) Hkey.
  pose proof (registry_index _ _ _ _ _ Hreg Hcode) as Hk.
  assert (Hk' : 0 <= key_code < Z.of_nat (length (buttons (joy self))))
    by (rewrite Hbt; lia).
  pose proof (handle_key_event _ _ _ _ _ Hreg Hcode Hkey Hk') as Hrun.
  eexists _, code_map, value_map, key_code.
  do 3 (split; [eassumption|]). split; [exact Hrun|].
  unfold wf_node, same_setup.
  repeat split; read_fields; rewrite ?length_insert; auto.
Qed.

Lemma handle_unrecognized self event code_map value_map :
  JOYSTICK_CODE_VALUE_MAP !! device_name event = Some (code_map, value_map) ->
  code_map !! code event = None ->
  handle_event event self = Ret tt self.
Proof. intros Hreg Hcode. unfold handle_event. by rewrite Hreg, Hcode. Qed.

Lemma handle_other_kind self event code_map value_map :
  JOYSTICK_CODE_VALUE_MAP !! device_name event = Some (code_map, value_map) ->
  String.eqb (ev_type event) "Key" = false ->
  String.eqb (ev_type event) "Absolute" = false ->
  handle_event event self = Ret tt self.
Proof.
  intros Hreg Hk Ha. unfold handle_event. rewrite Hreg, Hk, Ha.
  by destruct (code_map !! code event).
Qed.

(** No event of the right kind from a registered model raises. *)
Lemma handle_event_total self event :
  wf_node self -> well_kinded event = true ->
  exists self',
    handle_event event self = Ret tt self' /\
    wf_node self' /\ same_setup self self'.
Proof.
  intros Hwf Hwk. unfold well_kinded in Hwk.
  destruct (JOYSTICK_CODE_VALUE_MAP !! device_name event)
    as [[code_map value_map]|] eqn:Hreg; [|discriminate].
  destruct (code_map !! code event) as [key_code|] eqn:Hcode.
  2:{ exists self. rewrite (handle_unrecognized _ _ _ _ Hreg Hcode).
      auto using same_setup_refl. }
  assert (Hrec : recognized event) by (exists code_map, value_map; eauto).
  destruct (String.eqb (ev_type event) "Key") eqn:Hk.
  { apply String.eqb_eq in Hk.
    destruct (button_event_outcome self event Hwf Hrec Hk)
      as (self' & ? & ? & ? & _ & _ & _ & Hrun & Hwf' & Hsame & _).
    eauto. }
  destruct (String.eqb (ev_type event) "Absolute") eqn:Ha.
  { apply String.eqb_eq in Ha.
    destruct (axis_event_outcome self event Hwf Hrec (conj Ha Hwk))
      as (self' & ? & ? & ? & ? & ? & ? & _ & _ & _ & _ & _ & Hrun & Hwf'
          & Hsame & _).
    eauto. }
  exists self. rewrite (handle_other_kind _ _ _ _ Hreg Hk Ha).
  auto using same_setup_refl.
Qed.

(** ** Draining the gamepad *)

(** The drain of well-kinded events ends normally or, when the read
    fails, with the [OSError] that [run_one] absorbs. *)
Lemma for_events_total events fails self :
  wf_node self -> Forall (fun e => well_kinded e = true) events ->
  exists self',
    for_events events fails self
      = (if fails then Raise OSError self' else Ret tt self') /\
    wf_node self' /\ same_setup self self'.
Proof.
  intros Hwf Hall. revert self Hwf.
  induction Hall as [|event rest Hev _ IH]; intros self Hwf.
  - exists self. split; [by destruct fails|]. auto using same_setup_refl.
  - destruct (handle_event_total self event Hwf Hev)
      as (self1 & Hrun & Hwf1 & Hsame1).
    destruct (IH self1 Hwf1) as (self2 & Hrest & Hwf2 & Hsame2).
    exists self2. split; [|eauto using same_setup_trans].
    cbn [for_events]. run_monad. rewrite Hrun. exact Hrest.
Qed.

Lemma for_events_nil fails self :
  for_events [] fails self = if fails then Raise OSError self else Ret tt self.
Proof. by destruct fails. Qed.

(** [run_one] with a gamepad present is the drain followed by the
    autorepeat test on the node the drain leaves. *)
Lemma run_one_after_drain gamepad others self drained :
  for_events (pending gamepad) (read_fails gamepad) self
    = (if read_fails gamepad then Raise OSError drained else Ret tt drained) ->
  run_one (gamepad :: others) self = autorepeat drained.
Proof.
  intros Hdrain. unfold run_one, try_except_pass. run_monad.
  rewrite Hdrain. by destruct (read_fails gamepad).
Qed.

Lemma autorepeat_fires self :
  autorepeat_condition self ->
  autorepeat self = Ret tt (after_publish (node_of (time_time self))).
Proof.
  intros [Hrate Hgap]. unfold autorepeat. run_monad.
  destruct (Qlt_le_dec 0 (autorepeat_rate self)) as [_|Hle].
  2:{ by apply Qle_not_lt in Hle. }
  read_fields.
  destruct (Qlt_le_dec _ _) as [_|Hle]; [reflexivity|].
  by apply Qle_not_lt in Hle.
Qed.

Lemma autorepeat_silent self :
  ~ autorepeat_condition self ->
  exists self',
    autorepeat self = Ret tt self' /\
    joy self' = joy self /\ published self' = published self /\
    last_event self' = last_event self /\
    last_publish_time self' = last_publish_time self.
Proof.
  intros Hno. unfold autorepeat. run_monad.
  destruct (Qlt_le_dec 0 (autorepeat_rate self)) as [Hrate|_].
  2:{ by exists self. }
  read_fields.
  destruct (Qlt_le_dec _ _) as [Hgap|_].
  - destruct Hno. by split.
  - eexists. split; [reflexivity|]. by read_fields.
Qed.

Lemma autorepeat_condition_dec self :
  {autorepeat_condition self} + {~ autorepeat_condition self}.
Proof.
  unfold autorepeat_condition.
  destruct (Qlt_le_dec 0 (autorepeat_rate self)) as [Hpos|Hle].
  - destruct (Qlt_le_dec (1 / autorepeat_rate self)
                (wall self (reads self) - last_publish_time self))
      as [Hgap|Hno].
    + left. by split.
    + right. intros [_ Hgap]. by apply Qlt_not_le in Hgap.
  - right. intros [Hpos _]. by apply Qlt_not_le in Hpos.
Defined.

(** ** Time stamps *)

Lemma int_floor (x : Q) : (0 <= x)%Q -> int x = Qfloor x.
Proof.
  destruct x as [num den]. unfold Qle, int, Qfloor. cbn [Qnum Qden].
  intros Hnum. apply Z.quot_div_nonneg; lia.
Qed.

Lemma int_bounds (x : Q) :
  (0 <= x)%Q -> 0 <= int x /\ (inject_Z (int x) <= x < inject_Z (int x) + 1)%Q.
Proof.
  intros Hx. rewrite (int_floor x Hx). repeat split.
  - change 0 with (Qfloor 0). by apply Qfloor_resp_le.
  - apply Qfloor_le.
  - rewrite <- (inject_Z_plus _ 1). apply Qlt_floor.
Qed.

(** The fractional part of a non-negative clock reading. *)
Lemma modf_fraction (now : Q) :
  (0 <= now)%Q -> (0 <= (modf now).1 < 1)%Q.
Proof.
  intros Hnow. destruct (int_bounds now Hnow) as (_ & Hlo & Hhi).
  unfold modf. cbn [fst]. split; lra.
Qed.

Lemma land_32_bits (z : Z) : 0 <= z < 4294967296 -> Z.land z 0xffffffff = z.
Proof.
  intros Hz. change 0xffffffff with (Z.ones 32).
  rewrite Z.land_ones by lia. apply Z.mod_small. exact Hz.
Qed.

Lemma nanoseconds_bounds (now : Q) :
  (0 <= now)%Q ->
  0 <= int ((modf now).1 * 1000000000) < 1000000000.
Proof.
  intros Hnow. destruct (modf_fraction now Hnow) as [Hlo Hhi].
  set (scaled := ((modf now).1 * 1000000000)%Q).
  assert (Hs : (0 <= scaled < 1000000000)%Q) by (unfold scaled; split; lra).
  destruct (int_bounds scaled (proj1 Hs)) as (Hpos & Hle & _).
  split; [exact Hpos|].
  rewrite Zlt_Qlt. change (inject_Z 1000000000) with 1000000000%Q. lra.
Qed.

Lemma stamped_nanosec (now : Q) (j : Joy) :
  (0 <= now)%Q ->
  stamp_nanosec (stamped now j) = int ((modf now).1 * 1000000000) /\
  0 <= stamp_nanosec (stamped now j) < 1000000000.
Proof.
  intros Hnow. pose proof (nanoseconds_bounds now Hnow) as Hb.
  unfold stamped, set_stamp. cbn [stamp_nanosec].
  rewrite land_32_bits by lia. by split.
Qed.

(** ** What reaches the publisher *)

Lemma stamps_from_refl self : stamps_from self self.
Proof. split; [reflexivity|]. exists []. by rewrite app_nil_r. Qed.

Lemma stamps_from_trans s1 s2 s3 :
  stamps_from s1 s2 -> stamps_from s2 s3 -> stamps_from s1 s3.
Proof.
  intros (Hw12 & m12 & Hp12 & Hall12) (Hw23 & m23 & Hp23 & Hall23).
  split; [congruence|]. exists (m12 ++ m23).
  rewrite Hp23, Hp12, <- app_assoc. split; [reflexivity|].
  rewrite Hw12 in Hall23. by apply Forall_app.
Qed.

Lemma stamps_from_bind {A B} (m : M A) (f : A -> M B) :
  (forall self, stamps_from self (node_of (m self))) ->
  (forall a self, stamps_from self (node_of (f a self))) ->
  forall self, stamps_from self (node_of ((m ≫= f) self)).
Proof.
  intros Hm Hf self. specialize (Hm self). run_monad.
  destruct (m self) as [a self1|e self1]; cbn [node_of] in *; [|exact Hm].
  eapply stamps_from_trans; [exact Hm|apply Hf].
Qed.

Lemma publish_joy_stamps self : stamps_from self (node_of (publish_joy self)).
Proof.
  rewrite publish_joy_eq. split; [reflexivity|].
  eexists [_]. split; [reflexivity|]. constructor; eauto.
Qed.

Lemma time_time_stamps self : stamps_from self (node_of (time_time self)).
Proof. split; [reflexivity|]. exists []. by rewrite app_nil_r. Qed.

Lemma handle_event_stamps event self :
  stamps_from self (node_of (handle_event event self)).
Proof.
  assert (Hset : forall j e (s : JoystickRos2),
             stamps_from self s ->
             stamps_from self
               (set_last_event e (after_publish (set_joy j s)))).
  { intros j e s Hs. eapply stamps_from_trans; [exact Hs|].
    split; [reflexivity|]. eexists [_]. split; [reflexivity|].
    constructor; eauto. }
  pose proof (stamps_from_refl self) as Hrefl.
  unfold handle_event. run_monad.
  destruct (JOYSTICK_CODE_VALUE_MAP !! device_name event) as [[cm vm]|];
    [|exact Hrefl].
  destruct (cm !! code event) as [k|]; [|exact Hrefl].
  destruct (String.eqb _ "Key").
  { destruct (list_setitem _ _ _); [|exact Hrefl].
    rewrite publish_joy_eq. by apply Hset. }
  destruct (String.eqb _ "Absolute"); [|exact Hrefl].
  destruct (vm !! k) as [value_range|]; [|exact Hrefl].
  destruct (normalize_key_value _ _ _ _); [|exact Hrefl].
  destruct (list_setitem _ _ _); [|exact Hrefl].
  read_fields.
  destruct (last_event self) as [last|].
  2:{ rewrite publish_joy_eq. by apply Hset. }
  destruct (negb _).
  { rewrite publish_joy_eq. by apply Hset. }
  destruct (Qlt_le_dec _ _).
  { rewrite publish_joy_eq. cbn [node_of].
    split; [reflexivity|]. eexists [_]. split; [reflexivity|].
    constructor; eauto. }
  cbn [node_of]. split; [reflexivity|]. exists []. by rewrite app_nil_r.
Qed.

Lemma for_events_stamps events fails self :
  stamps_from self (node_of (for_events events fails self)).
Proof.
  revert self. induction events as [|event rest IH]; intros self.
  - rewrite for_events_nil. destruct fails; apply stamps_from_refl.
  - cbn [for_events]. apply stamps_from_bind; [apply handle_event_stamps|].
    intros _. exact IH.
Qed.

Lemma autorepeat_stamps self : stamps_from self (node_of (autorepeat self)).
Proof.
  unfold autorepeat. run_monad.
  destruct (Qlt_le_dec 0 _); [|apply stamps_from_refl]. read_fields.
  destruct (Qlt_le_dec _ _); [|apply time_time_stamps].
  eapply stamps_from_trans; [apply time_time_stamps|apply publish_joy_stamps].
Qed.

Lemma run_one_stamps gamepads self :
  stamps_from self (node_of (run_one gamepads self)).
Proof.
  destruct gamepads as [|gamepad others]; [apply stamps_from_refl|].
  unfold run_one. apply stamps_from_bind; [|intros _; apply autorepeat_stamps].
  intros s. unfold try_except_pass.
  pose proof (for_events_stamps (pending gamepad) (read_fails gamepad) s) as H.
  destruct (for_events _ _ s) as [[] s1|e s1]; [exact H|].
  by destruct (decide (e = OSError)).
Qed.

Lemma spin_stamps ticks self :
  stamps_from self (node_of (spin ticks self)).
Proof.
  revert self. induction ticks as [|gamepads rest IH]; intros self.
  - apply stamps_from_refl.
  - cbn [spin]. apply stamps_from_bind; [apply run_one_stamps|].
    intros _. exact IH.
Qed.

(** ** Ticks without events *)

Lemma run_one_idle gamepads self :
  idle gamepads -> (autorepeat_rate self <= 0)%Q ->
  run_one gamepads self = Ret tt self.
Proof.
  intros Hidle Hrate. destruct gamepads as [|gamepad others]; [reflexivity|].
  cbn [idle] in Hidle.
  rewrite (run_one_after_drain gamepad others self self).
  - unfold autorepeat. run_monad.
    destruct (Qlt_le_dec 0 _) as [Hpos|_]; [|reflexivity].
    by apply Qlt_not_le in Hpos.
  - rewrite Hidle. apply for_events_nil.
Qed.

Lemma spin_idle ticks self :
  Forall idle ticks -> (autorepeat_rate self <= 0)%Q ->
  spin ticks self = Ret tt self.
Proof.
  intros Hall Hrate. induction Hall as [|gamepads rest Hidle _ IH];
    [reflexivity|].
  cbn [spin]. run_monad. rewrite (run_one_idle _ _ Hidle Hrate). exact IH.
Qed.

(** ** Before the first axis event *)

Lemma handle_before_first_axis self event :
  wf_node self -> no_axis_recorded self -> before_first_axis event = true ->
  exists self',
    handle_event event self = Ret tt self' /\
    wf_node self' /\ same_setup self self' /\ no_axis_recorded self'.
Proof.
  intros Hwf Hrec Hev. unfold before_first_axis in Hev.
  apply andb_true_iff in Hev as [Hwk Hno]. unfold well_kinded in Hwk.
  destruct (JOYSTICK_CODE_VALUE_MAP !! device_name event)
    as [[code_map value_map]|] eqn:Hreg; [|discriminate].
  destruct (code_map !! code event) as [key_code|] eqn:Hcode.
  2:{ exists self. rewrite (handle_unrecognized _ _ _ _ Hreg Hcode).
      auto using same_setup_refl. }
  apply negb_true_iff in Hno.
  assert (Hr : recognized event) by (exists code_map, value_map; eauto).
  destruct (String.eqb (ev_type event) "Key") eqn:Hk.
  { apply String.eqb_eq in Hk.
    destruct (button_event_outcome self event Hwf Hr Hk)
      as (self' & ? & ? & ? & _ & _ & _ & Hrun & Hwf' & Hsame & Hlast & _).
    exists self'. do 3 (split; [assumption|]).
    intros last Heq. rewrite Hlast in Heq. by injection Heq as <-. }
  destruct (String.eqb (ev_type event) "Absolute") eqn:Ha.
  { congruence. }
  exists self. rewrite (handle_other_kind _ _ _ _ Hreg Hk Ha).
  auto using same_setup_refl.
Qed.

Lemma for_events_before_first_axis events fails self :
  wf_node self -> no_axis_recorded self ->
  Forall (fun e => before_first_axis e = true) events ->
  exists self',
    for_events events fails self
      = (if fails then Raise OSError self' else Ret tt self') /\
    wf_node self' /\ same_setup self self' /\ no_axis_recorded self'.
Proof.
  intros Hwf Hrec Hall. revert self Hwf Hrec.
  induction Hall as [|event rest Hev _ IH]; intros self Hwf Hrec.
  - exists self. split; [by destruct fails|]. auto using same_setup_refl.
  - destruct (handle_before_first_axis self event Hwf Hrec Hev)
      as (self1 & Hrun & Hwf1 & Hsame1 & Hrec1).
    destruct (IH self1 Hwf1 Hrec1) as (self2 & Hrest & Hwf2 & Hsame2 & Hrec2).
    exists self2. split; [|eauto using same_setup_trans].
    cbn [for_events]. run_monad. rewrite Hrun. exact Hrest.
Qed.

Lemma autorepeat_keeps_tracker self :
  wf_node self -> no_axis_recorded self ->
  exists self',
    autorepeat self = Ret tt self' /\
    wf_node self' /\ no_axis_recorded self'.
Proof.
  intros Hwf Hrec. destruct (autorepeat_condition_dec self) as [Hyes|Hno].
  - exists (after_publish (node_of (time_time self))).
    split; [by apply autorepeat_fires|]. by split.
  - destruct (autorepeat_silent self Hno)
      as (self' & Hrun & Hjoy & _ & Hlast & _).
    exists self'. split; [exact Hrun|].
    unfold wf_node, no_axis_recorded. rewrite Hjoy, Hlast. by split.
Qed.

Lemma run_one_before_first_axis gamepads self :
  wf_node self -> no_axis_recorded self ->
  before_first_axis_tick gamepads ->
  exists self',
    run_one gamepads self = Ret tt self' /\
    wf_node self' /\ no_axis_recorded self'.
Proof.
  intros Hwf Hrec Htick. destruct gamepads as [|gamepad others].
  - by exists self.
  - destruct (for_events_before_first_axis (pending gamepad)
                (read_fails gamepad) self Hwf Hrec Htick)
      as (drained & Hdrain & Hwf1 & _ & Hrec1).
    rewrite (run_one_after_drain gamepad others self drained Hdrain).
    by apply autorepeat_keeps_tracker.
Qed.

Lemma spin_before_first_axis ticks self :
  wf_node self -> no_axis_recorded self ->
  Forall before_first_axis_tick ticks ->
  exists self',
    spin ticks self = Ret tt self' /\
    wf_node self' /\ no_axis_recorded self'.
Proof.
  intros Hwf Hrec Hall. revert self Hwf Hrec.
  induction Hall as [|gamepads rest Htick _ IH]; intros self Hwf Hrec.
  - by exists self.
  - destruct (run_one_before_first_axis gamepads self Hwf Hrec Htick)
      as (self1 & Hrun & Hwf1 & Hrec1).
    destruct (IH self1 Hwf1 Hrec1) as (self2 & Hrest & Hwf2 & Hrec2).
    exists self2. split; [|by split].
    cbn [spin]. run_monad. rewrite Hrun. exact Hrest.
Qed.

Lemma recognized_intro event : recognizedb event = true -> recognized event.
Proof.
  unfold recognizedb, recognized. intros H.
  destruct (JOYSTICK_CODE_VALUE_MAP !! device_name event)
    as [[code_map value_map]|]; [|discriminate].
  apply bool_decide_eq_true in H. by exists code_map, value_map.
Qed.

Lemma app_singleton_neq {A} (l : list A) (x : A) : l ++ [x] <> l.
Proof.
  intros H. apply (f_equal length) in H. rewrite length_app in H.
  cbn in H. lia.
Qed.

(** ** What a publish records *)

Lemma axis_event_publish_time self self' event :
  wf_node self -> recognized event -> axis_event event ->
  handle_event event self = Ret tt self' ->
  wall self' = wall self /\
  (axis_publish_condition self event ->
     (reads self < reads self')%nat /\
     last_publish_time self' = wall self (pred (reads self'))) /\
  (~ axis_publish_condition self event ->
     last_publish_time self' = last_publish_time self).
Proof.
  intros [Hax Hbt] (code_map & value_map & Hreg & [key_code Hcode]) [Hty Hac].
  destruct (registry_axis _ _ _ _ _ Hreg Hcode Hac)
    as (Hk & lo & hi & Hvm & Hne).
  destruct (normalized_defined lo hi (state event) Hne) as [n Hn].
  pose proof (normalize_key_value_cases (deadzone self) _ _ _ _ Hn) as Hv.
  assert (Hk' : 0 <= key_code < Z.of_nat (length (axes (joy self))))
    by (rewrite Hax; lia).
  rewrite (handle_axis_event _ _ _ _ _ _ _ _ Hreg Hcode Hty Hvm Hv Hk').
  cbv zeta. intros [= <-]. unfold axis_publish_condition.
  destruct (last_event self) as [last|] eqn:Hlast.
  2:{ read_fields. split; [reflexivity|]. split; [intros _; split; [lia|done]|].
      intros Hno. destruct Hno. by left. }
  destruct (String.eqb (code last) (code event)) eqn:Hsame; cbn [negb].
  2:{ apply String.eqb_neq in Hsame. read_fields.
      split; [reflexivity|]. split; [intros _; split; [lia|done]|].
      intros Hno. destruct Hno. right; left. by exists last. }
  apply String.eqb_eq in Hsame.
  destruct (Qlt_le_dec (coalesce_interval self) _) as [Hlt|Hle]; read_fields.
  - split; [reflexivity|]. split; [intros _; split; [lia|done]|].
    intros Hno. destruct Hno. by right; right.
  - split; [reflexivity|]. split; [|done].
    intros [Hnone | [(last' & Heq & Hdiff) | Hlt]].
    + discriminate.
    + congruence.
    + by apply Qlt_not_le in Hlt.
Qed.

Lemma publish_recorded_refl self : publish_recorded self self.
Proof. split; [done|]. split; [lia|]. by left. Qed.

Lemma publish_recorded_trans s1 s2 s3 :
  publish_recorded s1 s2 -> publish_recorded s2 s3 -> publish_recorded s1 s3.
Proof.
  intros (Hw12 & Hr12 & H12) (Hw23 & Hr23 & H23).
  split; [congruence|]. split; [lia|].
  destruct H23 as [[Hp23 Ht23] | (m23 & k23 & j23 & Hp23 & Hk23 & Hk23' & Ht23)].
  - destruct H12 as [[Hp12 Ht12] | (m12 & k12 & j12 & Hp12 & Hk12 & Hk12' & Ht12)].
    + left. split; congruence.
    + right. exists m12, k12, j12. rewrite Hp23, Ht23.
      repeat split; auto; lia.
  - right. rewrite Hw12 in Hp23, Ht23.
    destruct H12 as [[Hp12 Ht12] | (m12 & k12 & j12 & Hp12 & Hk12 & Hk12' & Ht12)].
    + exists m23, k23, j23. rewrite Hp23, Hp12. repeat split; auto; lia.
    + exists (m12 ++ [stamped (wall s1 k12) j12] ++ m23), k23, j23.
      rewrite Hp23, Hp12, <- !app_assoc. repeat split; auto; lia.
Qed.

Lemma publish_recorded_publish self :
  publish_recorded self (after_publish self).
Proof.
  split; [done|]. read_fields. split; [lia|]. right.
  exists [], (reads self), (joy self). repeat split; auto; lia.
Qed.

Lemma publish_recorded_setters self self' :
  wall self' = wall self -> published self' = published self ->
  last_publish_time self' = last_publish_time self ->
  (reads self <= reads self')%nat ->
  publish_recorded self self'.
Proof. intros. split; [done|]. split; [done|]. by left. Qed.

Lemma publish_recorded_handle event self :
  publish_recorded self (node_of (handle_event event self)).
Proof.
  pose proof (publish_recorded_refl self) as Hrefl.
  assert (Hpub : forall (s : JoystickRos2) e,
            publish_recorded self s ->
            publish_recorded self (set_last_event e (after_publish s))).
  { intros s e Hs. eapply publish_recorded_trans; [exact Hs|].
    eapply publish_recorded_trans; [apply publish_recorded_publish|].
    by apply publish_recorded_setters. }
  unfold handle_event. run_monad.
  destruct (JOYSTICK_CODE_VALUE_MAP !! device_name event) as [[cm vm]|];
    [|exact Hrefl].
  destruct (cm !! code event) as [k|]; [|exact Hrefl].
  destruct (String.eqb _ "Key").
  { destruct (list_setitem _ _ _) as [b|]; [|exact Hrefl].
    rewrite publish_joy_eq. cbn [node_of]. apply Hpub.
    by apply publish_recorded_setters. }
  destruct (String.eqb _ "Absolute"); [|exact Hrefl].
  destruct (vm !! k) as [value_range|]; [|exact Hrefl].
  destruct (normalize_key_value _ _ _ _); [|exact Hrefl].
  destruct (list_setitem _ _ _) as [a|]; [|exact Hrefl].
  assert (Hstored :
    publish_recorded self (set_joy (set_axes a (joy self)) self))
    by (by apply publish_recorded_setters).
  assert (Hread :
    publish_recorded self
      (node_of (time_time (set_joy (set_axes a (joy self)) self))))
    by (apply publish_recorded_setters; read_fields; auto).
  read_fields.
  destruct (last_event self); [destruct (negb _)|];
    [| destruct (Qlt_le_dec _ _) |]; rewrite ?publish_joy_eq; cbn [node_of].
  - by apply Hpub.
  - by apply (Hpub _ _ Hread).
  - eapply publish_recorded_trans; [exact Hread|].
    by apply publish_recorded_setters.
  - by apply Hpub.
Qed.

Lemma publish_recorded_for_events events fails self :
  publish_recorded self (node_of (for_events events fails self)).
Proof.
  revert self. induction events as [|event rest IH]; intros self.
  - rewrite for_events_nil. destruct fails; apply publish_recorded_refl.
  - cbn [for_events]. run_monad.
    pose proof (publish_recorded_handle event self) as H1.
    destruct (handle_event event self) as [[] self1|x self1];
      cbn [node_of] in *; [|exact H1].
    eapply publish_recorded_trans; [exact H1|apply IH].
Qed.

(** * The claims *)

(** C1.  A recognised axis event publishes if and only if the tracker has
    no prior event, or the prior event has another code, or more than
    [coalesce_interval] has passed since the last publish; it publishes at
    most once.  A publish records the time: [last_publish_time] becomes
    the last clock reading the event took, and is left alone when the
    event does not publish.  Hence, when a first axis event publishes, a
    second one on the same code adds no publish if the clock, at its
    test, has advanced by at most [coalesce_interval] since that recorded
    reading, and one more publish if it has advanced by more; a second one
    on a different code always adds a publish. *)
Theorem axis_event_publish_iff (self : JoystickRos2) (event : InputEvent) :
  wf_node self -> recognized event -> axis_event event ->
  exists self',
    handle_event event self = Ret tt self' /\
    (published self' = published self ++ [joy self']
       <-> axis_publish_condition self event) /\
    (published self' = published self
       <-> ~ axis_publish_condition self event) /\
    (axis_publish_condition self event ->
       (reads self < reads self')%nat /\
       last_publish_time self' = wall self (pred (reads self'))) /\
    (~ axis_publish_condition self event ->
       last_publish_time self' = last_publish_time self) /\
    forall event2, recognized event2 -> axis_event event2 ->
      axis_publish_condition self event ->
      exists self'',
        handle_event event2 self' = Ret tt self'' /\
        let gap :=
          (wall self (reads self') - wall self (pred (reads self')))%Q in
        (code event2 = code event -> (gap <= coalesce_interval self)%Q ->
           published self'' = published self ++ [joy self']) /\
        (code event2 = code event -> (coalesce_interval self < gap)%Q ->
           published self'' = published self ++ [joy self'; joy self'']) /\
        (code event2 <> code event ->
           published self'' = published self ++ [joy self'; joy self'']).
Proof.
  intros Hwf Hrec Hax.
  destruct (axis_event_outcome self event Hwf Hrec Hax)
    as (self1 & _ & _ & _ & _ & _ & _ & _ & _ & _ & _ & _ & Hrun & Hwf1
        & Hsame & Hlast & _ & _ & Hpub).
  destruct (axis_event_publish_time self self1 event Hwf Hrec Hax Hrun)
    as (Hwall & Htime & Hkeep).
  exists self1. split; [exact Hrun|].
  split; [|split; [|split; [exact Htime|split; [exact Hkeep|]]]].
  - destruct Hpub as [[Hc Hp] | (Hc & Hp & _)].
    + by split.
    + split; [|intros Hyes; by destruct Hc].
      intros Heq. rewrite Hp in Heq. symmetry in Heq.
      by apply app_singleton_neq in Heq.
  - destruct Hpub as [[Hc Hp] | (Hc & Hp & _)].
    + split; [|intros Hno; by destruct Hno].
      intros Heq. rewrite Hp in Heq. by apply app_singleton_neq in Heq.
    + by split.
  - intros event2 Hrec2 Hax2 Hcond.
    destruct (Htime Hcond) as [_ Hrecorded].
    destruct Hpub as [[_ Hp] | (Hc & _)]; [|by destruct Hc].
    destruct (axis_event_outcome self1 event2 Hwf1 Hrec2 Hax2)
      as (self2 & _ & _ & _ & _ & _ & _ & _ & _ & _ & _ & _ & Hrun2 & _
          & _ & _ & _ & _ & Hpub2).
    destruct Hsame as (_ & _ & Hci & _).
    exists self2. split; [exact Hrun2|]. cbv zeta.
    unfold axis_publish_condition in Hpub2.
    rewrite Hlast, Hci, Hwall, Hrecorded in Hpub2.
    repeat split.
    + intros Hcode Hgap.
      destruct Hpub2 as [[Hc2 _] | (_ & Hp2 & _)]; [|congruence].
      destruct Hc2 as [Hnone | [(last & Heq & Hdiff) | Hlt]].
      * discriminate.
      * injection Heq as <-. congruence.
      * by apply Qlt_not_le in Hlt.
    + intros Hcode Hgap.
      destruct Hpub2 as [[_ Hp2] | (Hc2 & _)].
      * rewrite Hp2, Hp, <- app_assoc. reflexivity.
      * destruct Hc2. auto.
    + intros Hcode.
      destruct Hpub2 as [[_ Hp2] | (Hc2 & _)].
      * rewrite Hp2, Hp, <- app_assoc. reflexivity.
      * destruct Hc2. right; left. exists event. by split.
Qed.

Lemma axis_event_publish_iff_witness :
  wf_node (default_node fast_clock) /\
  recognized (stick_x 100) /\ axis_event (stick_x 100) /\
  (exists self' self'',
     handle_event (stick_x 100) (default_node fast_clock) = Ret tt self' /\
     handle_event (stick_x 200) self' = Ret tt self'' /\
     last_publish_time self' = fast_clock 1 /\
     published self'' = [joy self']) /\
  (exists self' self'',
     handle_event (stick_x 100) (default_node slow_clock) = Ret tt self' /\
     handle_event (stick_x 200) self' = Ret tt self'' /\
     last_publish_time self' = slow_clock 1 /\
     published self'' = [joy self'; joy self'']).
Proof.
  assert (Hwf : forall clock, wf_node (default_node clock))
    by (intros clock; split; reflexivity).
  assert (Hrec : forall raw, recognized (stick_x raw))
    by (intros raw; apply recognized_intro; vm_compute; reflexivity).
  assert (Hax : forall raw, axis_event (stick_x raw))
    by (intros raw; split; reflexivity).
  assert (Hfirst : forall clock,
            axis_publish_condition (default_node clock) (stick_x 100))
    by (intros clock; by left).
  split; [apply Hwf|]. split; [apply Hrec|]. split; [apply Hax|]. split.
  - destruct (axis_event_publish_iff _ _ (Hwf fast_clock) (Hrec 100) (Hax 100))
      as (self' & Hrun & _ & _ & Htime & _ & Hnext).
    destruct (Htime (Hfirst _)) as [_ Hrecorded].
    destruct (Hnext (stick_x 200) (Hrec 200) (Hax 200) (Hfirst _))
      as (self'' & Hrun2 & Hwithin & _).
    assert (Hnode : self' = node_of (handle_event (stick_x 100)
                                       (default_node fast_clock)))
      by (by rewrite Hrun).
    exists self', self''. split; [exact Hrun|]. split; [exact Hrun2|]. split.
    + rewrite Hrecorded, Hnode. reflexivity.
    + apply Hwithin; [reflexivity|]. rewrite Hnode. vm_compute. discriminate.
  - destruct (axis_event_publish_iff _ _ (Hwf slow_clock) (Hrec 100) (Hax 100))
      as (self' & Hrun & _ & _ & Htime & _ & Hnext).
    destruct (Htime (Hfirst _)) as [_ Hrecorded].
    destruct (Hnext (stick_x 200) (Hrec 200) (Hax 200) (Hfirst _))
      as (self'' & Hrun2 & _ & Hbeyond & _).
    assert (Hnode : self' = node_of (handle_event (stick_x 100)
                                       (default_node slow_clock)))
      by (by rewrite Hrun).
    exists self', self''. split; [exact Hrun|]. split; [exact Hrun2|]. split.
    + rewrite Hrecorded, Hnode. reflexivity.
    + apply Hbeyond; [reflexivity|]. rewrite Hnode. vm_compute. reflexivity.
Defined.

Example coalesced_pair :
  length (published (node_of
    ((handle_event (stick_x 100);; handle_event (stick_x 200))
       (default_node fast_clock)))) = 1%nat.
Proof. vm_compute. reflexivity. Qed.

Example different_codes :
  length (published (node_of
    ((handle_event (stick_x 100);; handle_event (stick_y 200))
       (default_node fast_clock)))) = 2%nat.
Proof. vm_compute. reflexivity. Qed.

Example separated_pair :
  length (published (node_of
    ((handle_event (stick_x 100);; handle_event (stick_x 200))
       (default_node slow_clock)))) = 2%nat.
Proof. vm_compute. reflexivity. Qed.

(** C2.  For [rawMin <> rawMax] and a raw value between them, in either
    orientation, the value [normalized] computed by the normaliser is
    [1 - 2 * (v - rawMin) / (rawMax - rawMin)] and lies in [[-1, 1]], and so
    does the value returned; [v = rawMin] gives exactly [1] and
    [v = rawMax] exactly [-1], which is also what is returned as long as
    the deadzone is below [1].  ([==] is equality of rationals.) *)
Theorem normalize_linear_range (dz : Q) (lo hi v : Z) :
  lo <> hi -> (lo <= v <= hi \/ hi <= v <= lo) ->
  exists n out,
    normalized lo hi v = Some n /\
    normalize_key_value dz lo hi v = Some out /\
    (n == 1 - 2 * ((inject_Z v - inject_Z lo) / (inject_Z hi - inject_Z lo)))%Q
    /\ (-1 <= n <= 1)%Q /\ (-1 <= out <= 1)%Q /\
    (v = lo -> (n == 1)%Q /\ ((dz < 1)%Q -> (out == 1)%Q)) /\
    (v = hi -> (n == -1)%Q /\ ((dz < 1)%Q -> (out == -1)%Q)).
Proof.
  intros Hne Hrange.
  destruct (normalized_defined lo hi v Hne) as [n Hn].
  exists n, (if Qlt_le_dec dz (Qabs n) then n else 0%Q).
  split; [exact Hn|]. split; [by apply normalize_key_value_cases|].
  unfold normalized in Hn.
  destruct (decide (hi - lo = 0)) as [|Hd]; [lia|]. injection Hn as Hn.
  set (A := inject_Z (v - lo)) in Hn. set (D := inject_Z (hi - lo)) in Hn.
  assert (HD : ~ (D == 0)%Q).
  { unfold D, Qeq, inject_Z. cbn [Qnum Qden]. lia. }
  assert (HA : (A == inject_Z v - inject_Z lo)%Q).
  { unfold A, Z.sub. by rewrite inject_Z_plus, inject_Z_opp. }
  assert (HD' : (D == inject_Z hi - inject_Z lo)%Q).
  { unfold D, Z.sub. by rewrite inject_Z_plus, inject_Z_opp. }
  assert (Hformula : (n == 1 - 2 * (A / D))%Q).
  { rewrite <- Hn. change (inject_Z (-2)) with (-2 # 1)%Q. field. exact HD. }
  assert (Hscaled : ((A / D) * D == A)%Q) by (field; exact HD).
  assert (Hsign : (0 <= A <= D /\ 0 < D \/ D <= A <= 0 /\ D < 0)%Q).
  { unfold A, D, Qle, Qlt, inject_Z. cbn [Qnum Qden]. lia. }
  assert (Hn_range : (-1 <= n <= 1)%Q).
  { rewrite Hformula. set (t := (A / D)%Q) in *. split; nra. }
  split; [by rewrite Hformula, HA, HD'|]. split; [exact Hn_range|].
  split; [destruct (Qlt_le_dec dz (Qabs n)); [exact Hn_range|split; lra]|].
  split.
  - intros ->.
    assert (Hone : (n == 1)%Q).
    { rewrite Hformula. unfold A. rewrite Z.sub_diag.
      change (inject_Z 0) with 0%Q. field. exact HD. }
    split; [exact Hone|]. intros Hdz.
    destruct (Qlt_le_dec dz (Qabs n)) as [_|Hle]; [exact Hone|].
    rewrite Hone in Hle. change (Qabs 1) with 1%Q in Hle. lra.
  - intros ->.
    assert (Hone : (n == -1)%Q).
    { rewrite Hformula. change A with D. field. exact HD. }
    split; [exact Hone|]. intros Hdz.
    destruct (Qlt_le_dec dz (Qabs n)) as [_|Hle]; [exact Hone|].
    rewrite Hone in Hle. change (Qabs (-1)) with 1%Q in Hle. lra.
Qed.

Lemma normalize_linear_range_witness :
  32767 <> -32768 /\ (32767 <= 0 <= -32768 \/ -32768 <= 0 <= 32767) /\
  exists n out,
    normalized 32767 (-32768) 0 = Some n /\
    normalize_key_value DEFAULT_DEADZONE 32767 (-32768) 0 = Some out /\
    (-1 <= n <= 1)%Q /\ (-1 <= out <= 1)%Q.
Proof.
  split; [lia|]. split; [lia|].
  destruct (normalize_linear_range DEFAULT_DEADZONE 32767 (-32768) 0)
    as (n & out & Hn & Hout & _ & Hrange & Hout_range & _); [lia|lia|].
  exists n, out. split; [exact Hn|]. split; [exact Hout|].
  split; [exact Hrange|exact Hout_range].
Defined.

Example normalize_minimum :
  normalize_key_value DEFAULT_DEADZONE (-32768) 32767 (-32768)
    = Some (65535 # 65535).
Proof. vm_compute. reflexivity. Qed.

Example normalize_maximum :
  normalize_key_value DEFAULT_DEADZONE (-32768) 32767 32767
    = Some (-65535 # 65535).
Proof. vm_compute. reflexivity. Qed.

Example normalize_out_of_range :
  normalize_key_value DEFAULT_DEADZONE (-32768) (-32767) 32767
    = Some (-131069 # 1).
Proof. vm_compute. reflexivity. Qed.

(** C3.  The deadzone is a hard cutoff: when the absolute value of the
    linearly normalised value [n] is at most the deadzone the normaliser
    returns exactly [0], otherwise it returns [n] itself, not rescaled; and
    that returned value is what a recognised axis event stores in its slot
    of [joy.axes]. *)
Theorem deadzone_hard_cutoff (dz : Q) (lo hi v : Z) (n : Q) :
  normalized lo hi v = Some n ->
  ((Qabs n <= dz)%Q -> normalize_key_value dz lo hi v = Some 0%Q) /\
  ((dz < Qabs n)%Q -> normalize_key_value dz lo hi v = Some n) /\
  forall self event code_map value_map key_code,
    JOYSTICK_CODE_VALUE_MAP !! device_name event
      = Some (code_map, value_map) ->
    code_map !! code event = Some key_code ->
    value_map !! key_code = Some (lo, hi) ->
    ev_type event = "Absolute" -> state event = v ->
    deadzone self = dz ->
    0 <= key_code < Z.of_nat (length (axes (joy self))) ->
    exists self',
      handle_event event self = Ret tt self' /\
      ((Qabs n <= dz)%Q ->
         axes (joy self') !! Z.to_nat key_code = Some 0%Q) /\
      ((dz < Qabs n)%Q ->
         axes (joy self') !! Z.to_nat key_code = Some n).
Proof.
  intros Hn.
  pose proof (normalize_key_value_cases dz lo hi v n Hn) as Hout.
  assert (Hzero : (Qabs n <= dz)%Q ->
            (if Qlt_le_dec dz (Qabs n) then n else 0%Q) = 0%Q).
  { intros Hle. destruct (Qlt_le_dec dz (Qabs n)) as [Hlt|_]; [|reflexivity].
    by apply Qlt_not_le in Hlt. }
  assert (Hkeep : (dz < Qabs n)%Q ->
            (if Qlt_le_dec dz (Qabs n) then n else 0%Q) = n).
  { intros Hlt. destruct (Qlt_le_dec dz (Qabs n)) as [_|Hle]; [reflexivity|].
    by apply Qlt_not_le in Hlt. }
  split; [intros Hle; by rewrite Hout, (Hzero Hle)|].
  split; [intros Hlt; by rewrite Hout, (Hkeep Hlt)|].
  intros self event code_map value_map key_code Hreg Hcode Hvm Hty Hst Hdz Hk.
  rewrite <- Hdz, <- Hst in Hout.
  pose proof (handle_axis_event _ _ _ _ _ _ _ _ Hreg Hcode Hty Hvm Hout Hk)
    as Hrun.
  cbv zeta in Hrun. rewrite Hdz in Hrun.
  eexists. split; [exact Hrun|].
  match goal with |- context [axes (joy ?s) !! _] =>
    assert (Hslot : axes (joy s) !! Z.to_nat key_code
              = Some (if Qlt_le_dec dz (Qabs n) then n else 0%Q))
  end.
  { destruct (last_event self); [destruct (negb _)|];
      [|destruct (Qlt_le_dec (coalesce_interval self) _)|];
      read_fields; apply list_lookup_insert_eq; lia. }
  split.
  - intros Hle. by rewrite Hslot, (Hzero Hle).
  - intros Hlt. by rewrite Hslot, (Hkeep Hlt).
Qed.

Lemma deadzone_hard_cutoff_witness :
  normalized (-32768) 32767 0 = Some (-1 # 65535) /\
  normalize_key_value DEFAULT_DEADZONE (-32768) 32767 0 = Some 0%Q.
Proof.
  assert (Hn : normalized (-32768) 32767 0 = Some (-1 # 65535))
    by (vm_compute; reflexivity).
  split; [exact Hn|].
  apply (deadzone_hard_cutoff DEFAULT_DEADZONE _ _ _ _ Hn).
  vm_compute. discriminate.
Defined.

Example deadzone_kept :
  normalize_key_value DEFAULT_DEADZONE 0 255 100 = Some (55 # 255).
Proof. vm_compute. reflexivity. Qed.

(** C4.  A recognised button event always publishes, whatever the tracker
    and the clock say; so do two in a row, on the same code or not. *)
Theorem button_event_always_publishes (self : JoystickRos2)
    (event : InputEvent) :
  wf_node self -> recognized event -> button_event event ->
  exists self',
    handle_event event self = Ret tt self' /\
    published self' = published self ++ [joy self'] /\
    forall event2, recognized event2 -> button_event event2 ->
      exists self'',
        handle_event event2 self' = Ret tt self'' /\
        published self'' = published self ++ [joy self'; joy self''].
Proof.
  intros Hwf Hrec Hkey.
  destruct (button_event_outcome self event Hwf Hrec Hkey)
    as (self1 & _ & _ & _ & _ & _ & _ & Hrun & Hwf1 & _ & _ & _ & _ & Hp).
  exists self1. split; [exact Hrun|]. split; [exact Hp|].
  intros event2 Hrec2 Hkey2.
  destruct (button_event_outcome self1 event2 Hwf1 Hrec2 Hkey2)
    as (self2 & _ & _ & _ & _ & _ & _ & Hrun2 & _ & _ & _ & _ & _ & Hp2).
  exists self2. split; [exact Hrun2|].
  rewrite Hp2, Hp, <- app_assoc. reflexivity.
Qed.

Lemma button_event_always_publishes_witness :
  wf_node (default_node fast_clock) /\
  recognized (button_south 1) /\ button_event (button_south 1) /\
  exists self',
    handle_event (button_south 1) (default_node fast_clock) = Ret tt self' /\
    published self' = published (default_node fast_clock) ++ [joy self'].
Proof.
  assert (Hwf : wf_node (default_node fast_clock)) by (split; reflexivity).
  assert (Hrec : recognized (button_south 1))
    by (apply recognized_intro; vm_compute; reflexivity).
  assert (Hkey : button_event (button_south 1)) by reflexivity.
  split; [exact Hwf|]. split; [exact Hrec|]. split; [exact Hkey|].
  destruct (button_event_always_publishes _ _ Hwf Hrec Hkey)
    as (self' & Hrun & Hp & _).
  exists self'. by split.
Defined.

Example same_button_twice :
  length (published (node_of
    ((handle_event (button_south 1);; handle_event (button_south 1))
       (default_node fast_clock)))) = 2%nat.
Proof. vm_compute. reflexivity. Qed.

Example different_buttons :
  length (published (node_of
    ((handle_event (button_south 1);; handle_event (button_east 1))
       (default_node fast_clock)))) = 2%nat.
Proof. vm_compute. reflexivity. Qed.

(** C5, as the code has it.  A recognised button event stores
    [event.state] itself in its slot of [joy.buttons], with no clamping;
    the slot holds 0 or 1 exactly when the raw state is 0 or 1. *)
Theorem button_state_stored_verbatim (self : JoystickRos2)
    (event : InputEvent) :
  wf_node self -> recognized event -> button_event event ->
  exists self' code_map value_map key_code,
    JOYSTICK_CODE_VALUE_MAP !! device_name event
      = Some (code_map, value_map) /\
    code_map !! code event = Some key_code /\
    handle_event event self = Ret tt self' /\
    buttons (joy self') !! Z.to_nat key_code = Some (state event) /\
    (buttons (joy self') !! Z.to_nat key_code = Some 0 \/
     buttons (joy self') !! Z.to_nat key_code = Some 1
       <-> state event = 0 \/ state event = 1).
Proof.
  intros Hwf Hrec Hkey.
  destruct (button_event_outcome self event Hwf Hrec Hkey)
    as (self1 & code_map & value_map & key_code & Hreg & Hcode & Hk & Hrun
        & _ & _ & _ & Hb & _).
  exists self1, code_map, value_map, key_code.
  do 3 (split; [assumption|]).
  assert (Hslot : buttons (joy self1) !! Z.to_nat key_code
                    = Some (state event)).
  { rewrite Hb. apply list_lookup_insert_eq. destruct Hwf as [_ Hlen]. lia. }
  split; [exact Hslot|]. rewrite Hslot.
  split; (intros [H|H]; [left|right]; congruence).
Qed.

Lemma button_state_stored_verbatim_witness :
  wf_node (default_node fast_clock) /\
  recognized (button_south 2) /\ button_event (button_south 2) /\
  exists self' key_code,
    handle_event (button_south 2) (default_node fast_clock) = Ret tt self' /\
    buttons (joy self') !! Z.to_nat key_code = Some 2.
Proof.
  assert (Hwf : wf_node (default_node fast_clock)) by (split; reflexivity).
  assert (Hrec : recognized (button_south 2))
    by (apply recognized_intro; vm_compute; reflexivity).
  assert (Hkey : button_event (button_south 2)) by reflexivity.
  split; [exact Hwf|]. split; [exact Hrec|]. split; [exact Hkey|].
  destruct (button_state_stored_verbatim _ _ Hwf Hrec Hkey)
    as (self' & _ & _ & key_code & _ & _ & Hrun & Hslot & _).
  exists self', key_code. by split.
Defined.

(** C5, as stated, fails: a recognised [Key] event with raw state 2 (the
    value the input layer uses for a held key) leaves 2 in the slot. *)
Lemma button_state_clamped_counterexample :
  ~ (forall self event, wf_node self -> recognized event ->
       button_event event ->
       forall self' code_map value_map key_code,
         JOYSTICK_CODE_VALUE_MAP !! device_name event
           = Some (code_map, value_map) ->
         code_map !! code event = Some key_code ->
         handle_event event self = Ret tt self' ->
         buttons (joy self') !! Z.to_nat key_code = Some 0 \/
         buttons (joy self') !! Z.to_nat key_code = Some 1).
Proof.
  intros Hclaim.
  assert (Hwf : wf_node (default_node fast_clock)) by (split; reflexivity).
  assert (Hrec : recognized (button_south 2))
    by (apply recognized_intro; vm_compute; reflexivity).
  assert (Hkey : button_event (button_south 2)) by reflexivity.
  destruct (button_event_outcome _ _ Hwf Hrec Hkey)
    as (self1 & code_map & value_map & key_code & Hreg & Hcode & Hk & Hrun
        & _ & _ & _ & Hb & _).
  assert (Hslot : buttons (joy self1) !! Z.to_nat key_code = Some 2).
  { rewrite Hb. apply list_lookup_insert_eq. cbn. lia. }
  destruct (Hclaim _ _ Hwf Hrec Hkey _ _ _ _ Hreg Hcode Hrun) as [H|H];
    rewrite Hslot in H; discriminate.
Qed.

Example button_south_held :
  buttons (joy (node_of
    (handle_event (button_south 2) (default_node fast_clock))))
    = [2; 0; 0; 0; 0; 0; 0; 0; 0; 0; 0].
Proof. vm_compute. reflexivity. Qed.

(** C7.  An event whose code is not a key of the code map of its device
    leaves the node as it is: state buffer, tracker, publisher and clock
    are untouched, and nothing is raised. *)
Theorem unrecognized_code_ignored (self : JoystickRos2) (event : InputEvent)
    (code_map : gmap string Z) (value_map : gmap Z (Z * Z)) :
  JOYSTICK_CODE_VALUE_MAP !! device_name event = Some (code_map, value_map) ->
  code_map !! code event = None ->
  handle_event event self = Ret tt self /\
  joy (node_of (handle_event event self)) = joy self /\
  last_event (node_of (handle_event event self)) = last_event self /\
  last_publish_time (node_of (handle_event event self))
    = last_publish_time self /\
  published (node_of (handle_event event self)) = published self.
Proof.
  intros Hreg Hcode.
  rewrite (handle_unrecognized self event code_map value_map Hreg Hcode).
  by repeat split.
Qed.

Lemma unrecognized_code_ignored_witness :
  handle_event (dpad_up 1) (default_node fast_clock)
    = Ret tt (default_node fast_clock).
Proof.
  apply (unrecognized_code_ignored (default_node fast_clock) (dpad_up 1)
           XINPUT_CODE_MAP XINPUT_VALUE_MAP).
  - vm_compute. reflexivity.
  - vm_compute. reflexivity.
Defined.

(** An event from a model that is not in the registry is not ignored:
    the lookup of its profile raises, and [run_one] lets that through. *)
Lemma unregistered_model_raises (self : JoystickRos2) (event : InputEvent) :
  JOYSTICK_CODE_VALUE_MAP !! device_name event = None ->
  handle_event event self = Raise KeyError self.
Proof. intros Hreg. unfold handle_event. by rewrite Hreg. Qed.

Example generic_joystick_raises :
  handle_event {| device_name := "Generic USB Joystick"; ev_type := "Key";
                  code := "BTN_SOUTH"; state := 1 |}
               (default_node fast_clock)
    = Raise KeyError (default_node fast_clock).
Proof. apply unregistered_model_raises. vm_compute. reflexivity. Qed.

(** C6.  With a gamepad present, [run_one] drains the events and then
    publishes the current state once more if and only if
    [autorepeat_rate > 0] and more than [1 / autorepeat_rate] has passed
    since the last publish, the axes and buttons of that message being
    those the drain left; otherwise nothing is added.  The last publish is
    the one the node recorded: a drain that published leaves in
    [last_publish_time] the clock reading taken right after stamping its
    last message, a drain that did not publish leaves it alone, and the
    autorepeat publish records its own reading.  With
    [autorepeat_rate = 0], any number of ticks without events publishes
    nothing. *)
Theorem autorepeat_after_drain (self : JoystickRos2) (gamepad : GamePad)
    (others : list GamePad) :
  wf_node self ->
  Forall (fun e => well_kinded e = true) (pending gamepad) ->
  exists drained self',
    drained
      = node_of (for_events (pending gamepad) (read_fails gamepad) self) /\
    run_one (gamepad :: others) self = Ret tt self' /\
    publish_recorded self drained /\
    (autorepeat_condition drained ->
       published self' = published drained ++ [joy self'] /\
       axes (joy self') = axes (joy drained) /\
       buttons (joy self') = buttons (joy drained) /\
       last_publish_time self' = wall self (S (S (reads drained)))) /\
    (~ autorepeat_condition drained ->
       published self' = published drained /\ joy self' = joy drained /\
       last_publish_time self' = last_publish_time drained) /\
    (published self' <> published drained <-> autorepeat_condition drained) /\
    forall ticks, (autorepeat_rate self == 0)%Q -> Forall idle ticks ->
      exists final,
        spin ticks self = Ret tt final /\ published final = published self.
Proof.
  intros Hwf Hall.
  destruct (for_events_total _ (read_fails gamepad) self Hwf Hall)
    as (drained & Hdrain & _ & _).
  pose proof (run_one_after_drain gamepad others self drained Hdrain) as Hrun.
  assert (Hnode : drained
            = node_of (for_events (pending gamepad) (read_fails gamepad) self)).
  { rewrite Hdrain. by destruct (read_fails gamepad). }
  assert (Hrecorded : publish_recorded self drained).
  { rewrite Hnode. apply publish_recorded_for_events. }
  assert (Hidle : forall ticks,
            (autorepeat_rate self == 0)%Q -> Forall idle ticks ->
            exists final,
              spin ticks self = Ret tt final /\
              published final = published self).
  { intros ticks Hrate Hticks. exists self. split; [|reflexivity].
    apply spin_idle; [exact Hticks|]. rewrite Hrate. apply Qle_refl. }
  destruct (autorepeat_condition_dec drained) as [Hyes|Hno].
  - exists drained, (after_publish (node_of (time_time drained))).
    split; [exact Hnode|].
    split; [by rewrite Hrun, (autorepeat_fires drained Hyes)|].
    split; [exact Hrecorded|].
    split.
    { intros _. read_fields. destruct Hrecorded as [-> _]. by repeat split. }
    split; [intros Hno; by destruct Hno|].
    split; [|exact Hidle].
    split; [intros _; exact Hyes|]. intros _. read_fields.
    apply app_singleton_neq.
  - destruct (autorepeat_silent drained Hno)
      as (self' & Hauto & Hjoy & Hpub & _ & Htime).
    exists drained, self'. split; [exact Hnode|].
    split; [by rewrite Hrun|].
    split; [exact Hrecorded|].
    split; [intros Hyes; by destruct Hno|].
    split; [intros _; by repeat split|].
    split; [|exact Hidle].
    split; [intros Hne; by destruct Hne|]. intros Hyes. by destruct Hno.
Qed.

Lemma autorepeat_after_drain_witness :
  (exists self',
     run_one [quiet_pad]
       (JoystickRos2_init DEFAULT_DEADZONE 50 DEFAULT_COALESCE_INTERVAL
          fast_clock) = Ret tt self' /\
     published self' = [joy self'] /\
     last_publish_time self' = fast_clock 2) /\
  (exists self',
     run_one [{| pending := [button_south 1]; read_fails := false |}]
       (JoystickRos2_init DEFAULT_DEADZONE 50 DEFAULT_COALESCE_INTERVAL
          fast_clock) = Ret tt self' /\
     length (published self') = 1%nat /\
     last_publish_time self' = fast_clock 1).
Proof.
  set (self := JoystickRos2_init DEFAULT_DEADZONE 50
                 DEFAULT_COALESCE_INTERVAL fast_clock).
  assert (Hwf : wf_node self) by (split; reflexivity).
  split.
  - destruct (autorepeat_after_drain self quiet_pad [] Hwf)
      as (drained & self' & Hnode & Hrun & _ & Hyes & _); [constructor|].
    exists self'. split; [exact Hrun|].
    destruct Hyes as (Hpub & _ & _ & Htime).
    { rewrite Hnode. split; vm_compute; reflexivity. }
    split.
    + rewrite Hpub, Hnode. reflexivity.
    + rewrite Htime, Hnode. reflexivity.
  - destruct (autorepeat_after_drain self
                {| pending := [button_south 1]; read_fails := false |} [] Hwf)
      as (drained & self' & Hnode & Hrun & _ & _ & Hno & _).
    { constructor; [vm_compute; reflexivity|constructor]. }
    exists self'. split; [exact Hrun|].
    destruct Hno as (Hpub & _ & Htime).
    { rewrite Hnode. intros [_ Hgap]. vm_compute in Hgap. discriminate. }
    split.
    + rewrite Hpub, Hnode. vm_compute. reflexivity.
    + rewrite Htime, Hnode. reflexivity.
Defined.

Example autorepeat_idle_default :
  published (node_of
    (spin [[quiet_pad]; []; [quiet_pad]; [quiet_pad]]
       (default_node slow_clock))) = [].
Proof. vm_compute. reflexivity. Qed.

Example autorepeat_after_gap :
  length (published (node_of
    (spin [[{| pending := [button_south 1]; read_fails := false |}];
           [quiet_pad]; [quiet_pad]; [quiet_pad]; [quiet_pad]]
       (JoystickRos2_init DEFAULT_DEADZONE 50 DEFAULT_COALESCE_INTERVAL
          slow_clock)))) = 2%nat.
Proof. vm_compute. reflexivity. Qed.

(** C8.  Every profile of the registry is well formed: each code of a code
    map is an axis code or a button code; an axis code maps to an index
    below 8 that has a range in the value map with distinct ends; a button
    code maps to an index below 11.  Hence an event from a registered
    model whose kind fits its code is handled without any exception: no
    missing key, no index out of range, no division by zero. *)
Theorem registry_well_formed (name : string) (code_map : gmap string Z)
    (value_map : gmap Z (Z * Z)) (c : string) (k : Z) :
  JOYSTICK_CODE_VALUE_MAP !! name = Some (code_map, value_map) ->
  code_map !! c = Some k ->
  (is_axis_code c = true \/ is_button_code c = true) /\
  (is_axis_code c = true ->
     0 <= k < 8 /\
     exists lo hi, value_map !! k = Some (lo, hi) /\ lo <> hi) /\
  (is_button_code c = true -> 0 <= k < 11) /\
  forall self event,
    wf_node self -> device_name event = name -> code event = c ->
    (ev_type event = "Absolute" -> is_axis_code c = true) ->
    exists self', handle_event event self = Ret tt self'.
Proof.
  intros Hreg Hcode.
  pose proof (registry_entry _ _ _ _ _ Hreg Hcode) as Hentry.
  pose proof (registry_index _ _ _ _ _ Hreg Hcode) as Hindex.
  split; [|split; [|split]].
  - unfold entry_ok in Hentry. destruct (is_axis_code c); [by left|].
    apply andb_true_iff in Hentry as [Hb _]. by right.
  - intros Hax. exact (registry_axis _ _ _ _ _ Hreg Hcode Hax).
  - intros _. exact Hindex.
  - intros self event Hwf Hname Hc Hkind. subst name c.
    destruct (handle_event_total self event Hwf) as (self' & Hrun & _).
    + unfold well_kinded. rewrite Hreg, Hcode.
      destruct (String.eqb (ev_type event) "Absolute") eqn:Hty;
        [|reflexivity].
      apply String.eqb_eq in Hty. by apply Hkind.
    + by exists self'.
Qed.

Lemma registry_well_formed_witness :
  JOYSTICK_CODE_VALUE_MAP !! "Microsoft X-Box One pad"
    = Some (XONE_CODE_MAP, XONE_VALUE_MAP) /\
  XONE_CODE_MAP !! "ABS_RY" = Some 4 /\
  exists lo hi, XONE_VALUE_MAP !! 4 = Some (lo, hi) /\ lo <> hi.
Proof.
  assert (Hreg : JOYSTICK_CODE_VALUE_MAP !! "Microsoft X-Box One pad"
                   = Some (XONE_CODE_MAP, XONE_VALUE_MAP))
    by (vm_compute; reflexivity).
  assert (Hcode : XONE_CODE_MAP !! "ABS_RY" = Some 4)
    by (vm_compute; reflexivity).
  split; [exact Hreg|]. split; [exact Hcode|].
  destruct (registry_well_formed _ _ _ _ _ Hreg Hcode) as (_ & Hax & _).
  destruct Hax as [_ Hrange]; [reflexivity|exact Hrange].
Defined.

Example registry_size : size JOYSTICK_CODE_VALUE_MAP = 5%nat.
Proof. vm_compute. reflexivity. Qed.

Example xone_right_stick_range :
  XONE_VALUE_MAP !! 4 = Some (-32768, -32767).
Proof. vm_compute. reflexivity. Qed.

(** C9.  While the wall clock is not before the epoch, the nanosecond
    field of every published message lies in [[0, 10^9)]: the fractional
    part of the reading scaled by [10^9] stays below [10^9 < 2^32], so the
    32-bit mask leaves its integer part as it is.  This holds for each
    call of [publish_joy] and for every message published by any run of
    the dispatch timer from start-up. *)
Theorem nanosec_in_range (clock : nat -> Q) :
  (forall n, (0 <= clock n)%Q) ->
  (forall self, wall self = clock ->
     exists self',
       publish_joy self = Ret tt self' /\
       published self' = published self ++ [joy self'] /\
       stamp_nanosec (joy self')
         = int ((modf (clock (reads self))).1 * 1000000000) /\
       ((modf (clock (reads self))).1 * 1000000000 < 4294967296)%Q /\
       nanosec_ok (joy self')) /\
  forall dz rate coalesce ticks,
    Forall nanosec_ok
      (published (node_of
         (spin ticks (JoystickRos2_init dz rate coalesce clock)))).
Proof.
  intros Hclock. split.
  - intros self Hwall. exists (after_publish self).
    split; [apply publish_joy_eq|]. split; [reflexivity|].
    read_fields. rewrite Hwall.
    destruct (stamped_nanosec (clock (reads self)) (joy self) (Hclock _))
      as [Hraw Hrange].
    split; [exact Hraw|]. split; [|exact Hrange].
    destruct (modf_fraction (clock (reads self)) (Hclock _)) as [_ Hlt].
    lra.
  - intros dz rate coalesce ticks.
    destruct (spin_stamps ticks (JoystickRos2_init dz rate coalesce clock))
      as (_ & msgs & Hpub & Hall).
    rewrite Hpub. cbn [published JoystickRos2_init app].
    eapply Forall_impl; [exact Hall|].
    intros msg (n & j & ->). cbn [wall JoystickRos2_init].
    exact (proj2 (stamped_nanosec (clock n) j (Hclock n))).
Qed.

Lemma fast_clock_lower_bound (n : nat) : (1700000000 <= fast_clock n)%Q.
Proof.
  unfold fast_clock.
  assert (H : (0 <= inject_Z (Z.of_nat n))%Q).
  { change 0%Q with (inject_Z 0). rewrite <- Zle_Qle. lia. }
  lra.
Qed.

Lemma nanosec_in_range_witness :
  (forall n, (0 <= fast_clock n)%Q) /\
  Forall nanosec_ok
    (published (node_of
       (spin [[{| pending := [stick_x 12; button_south 1];
                  read_fails := true |}]]
          (default_node fast_clock)))).
Proof.
  assert (Hclock : forall n, (0 <= fast_clock n)%Q).
  { intros n. pose proof (fast_clock_lower_bound n). lra. }
  split; [exact Hclock|].
  apply (nanosec_in_range fast_clock Hclock).
Defined.

Example nanosec_sample :
  stamp_nanosec (stamped (17000000001234567891 # 10000000000) 
                   (joy (default_node fast_clock))) = 123456789.
Proof. vm_compute. reflexivity. Qed.

Example nanosec_before_epoch :
  stamp_nanosec (stamped (-1 # 2) (joy (default_node fast_clock)))
    = 3794967296.
Proof. vm_compute. reflexivity. Qed.

(** C10, as the code has it.  [last_publish_time] starts at 0, so on the
    first tick with a gamepad present, no event and
    [autorepeat_rate > 0], the elapsed time is the clock reading itself:
    the all-zero initial state is published exactly when that reading
    exceeds [1 / autorepeat_rate], and nothing is published when it does
    not.  The first recognised axis event of a run publishes whatever the
    clock and [coalesce_interval] are, because no axis code has been
    recorded before it. *)
Theorem first_tick_autorepeat (dz rate coalesce : Q) (clock : nat -> Q)
    (gamepad : GamePad) (others : list GamePad) :
  (0 < rate)%Q -> pending gamepad = [] ->
  let self := JoystickRos2_init dz rate coalesce clock in
  last_publish_time self = 0%Q /\
  (exists self',
     run_one (gamepad :: others) self = Ret tt self' /\
     ((1 / rate < clock 0%nat)%Q ->
        published self' = [joy self'] /\
        axes (joy self') = [0; 0; 0; 0; 0; 0; 0; 0]%Q /\
        buttons (joy self') = [0; 0; 0; 0; 0; 0; 0; 0; 0; 0; 0]) /\
     ((clock 0%nat <= 1 / rate)%Q -> published self' = [])) /\
  forall ticks prior event,
    Forall before_first_axis_tick ticks ->
    Forall (fun e => before_first_axis e = true) prior ->
    recognized event -> axis_event event ->
    exists self0 self1 self2,
      spin ticks self = Ret tt self0 /\
      for_events prior false self0 = Ret tt self1 /\
      handle_event event self1 = Ret tt self2 /\
      published self2 = published self1 ++ [joy self2].
Proof.
  intros Hrate Hquiet self.
  assert (Hwf : wf_node self) by (split; reflexivity).
  split; [reflexivity|]. split.
  - assert (Hdrain :
      for_events (pending gamepad) (read_fails gamepad) self
        = if read_fails gamepad then Raise OSError self else Ret tt self).
    { rewrite Hquiet. apply for_events_nil. }
    rewrite (run_one_after_drain gamepad others self self Hdrain).
    assert (Hcond : autorepeat_condition self <-> (1 / rate < clock 0%nat)%Q).
    { unfold autorepeat_condition, self. read_fields.
      cbn [autorepeat_rate wall reads last_publish_time JoystickRos2_init].
      split; [intros [_ H]; lra|intros H; split; [exact Hrate|lra]]. }
    destruct (autorepeat_condition_dec self) as [Hyes|Hno].
    + exists (after_publish (node_of (time_time self))).
      split; [by apply autorepeat_fires|].
      split; [intros _; by repeat split|].
      intros Hle. apply Hcond in Hyes. by apply Qlt_not_le in Hyes.
    + destruct (autorepeat_silent self Hno) as (self' & Hrun & _ & Hpub & _).
      exists self'. split; [exact Hrun|].
      split; [intros Hlt; apply Hcond in Hlt; by destruct Hno|].
      intros _. exact Hpub.
  - intros ticks prior event Hticks Hprior Hrec Hax.
    assert (Hnone : no_axis_recorded self) by (intros last Heq; discriminate).
    destruct (spin_before_first_axis ticks self Hwf Hnone Hticks)
      as (self0 & Hrun0 & Hwf0 & Hnone0).
    destruct (for_events_before_first_axis prior false self0 Hwf0 Hnone0
                Hprior)
      as (self1 & Hrun1 & Hwf1 & _ & Hnone1).
    destruct (axis_event_outcome self1 event Hwf1 Hrec Hax)
      as (self2 & _ & _ & _ & _ & _ & _ & _ & _ & _ & _ & _ & Hrun2 & _
          & _ & _ & _ & _ & Hpub).
    exists self0, self1, self2.
    split; [exact Hrun0|]. split; [exact Hrun1|]. split; [exact Hrun2|].
    destruct Hpub as [[_ Hp] | (Hno & _)]; [exact Hp|].
    destruct Hno. unfold axis_publish_condition.
    destruct (last_event self1) as [last|] eqn:Hlast; [|by left].
    right; left. exists last. split; [reflexivity|].
    intros Heq. pose proof (Hnone1 last Hlast) as Hcode.
    destruct Hax as [_ Haxis]. congruence.
Qed.

Lemma first_tick_autorepeat_witness :
  (0 < 50)%Q /\ pending quiet_pad = [] /\
  exists self',
    run_one [quiet_pad]
      (JoystickRos2_init DEFAULT_DEADZONE 50 DEFAULT_COALESCE_INTERVAL
         fast_clock) = Ret tt self' /\
    published self' = [joy self'].
Proof.
  assert (Hrate : (0 < 50)%Q) by reflexivity.
  split; [exact Hrate|]. split; [reflexivity|].
  destruct (first_tick_autorepeat DEFAULT_DEADZONE 50
              DEFAULT_COALESCE_INTERVAL fast_clock quiet_pad []
              Hrate eq_refl) as (_ & (self' & Hrun & Hyes & _) & _).
  exists self'. split; [exact Hrun|].
  apply Hyes. vm_compute. reflexivity.
Defined.

(** C10, as stated, fails for small positive rates: with a present-day
    clock and [autorepeat_rate = 10^-10] the first tick publishes
    nothing, since [1 / autorepeat_rate] is larger than the time since
    the epoch. *)
Lemma first_tick_autorepeat_counterexample :
  ~ (forall (dz rate coalesce : Q) (clock : nat -> Q) (gamepad : GamePad),
       (0 < rate)%Q -> (forall n, (1000000000 <= clock n)%Q) ->
       pending gamepad = [] ->
       published (node_of
         (run_one [gamepad] (JoystickRos2_init dz rate coalesce clock)))
         <> []).
Proof.
  intros Hclaim.
  apply (Hclaim DEFAULT_DEADZONE (1 # 10000000000) DEFAULT_COALESCE_INTERVAL
           fast_clock quiet_pad).
  - reflexivity.
  - intros n. pose proof (fast_clock_lower_bound n). lra.
  - reflexivity.
  - vm_compute. reflexivity.
Qed.

Example first_axis_after_buttons :
  length (published (node_of
    (for_events [button_south 1; button_south 0; stick_x 5] false
       (default_node (fun _ => 1700000000%Q))))) = 3%nat.
Proof. vm_compute. reflexivity. Qed.

(** * Rounding *)

(** The range and the end points of the normaliser do not depend on the
    arithmetic being exact: they hold for every rounding that is monotone
    and leaves the integers from -2 to 2 alone, as rounding to the nearest
    binary64 number does. *)
Section Rounding.

Variable rnd : Q -> Q.
Hypothesis rnd_monotone : forall x y, (x <= y)%Q -> (rnd x <= rnd y)%Q.
Hypothesis rnd_small_int :
  forall z : Z, -2 <= z <= 2 -> (rnd (inject_Z z) == inject_Z z)%Q.

Lemma rnd_proper (x y : Q) : (x == y)%Q -> (rnd x == rnd y)%Q.
Proof.
  intros Heq. apply Qle_antisym; apply rnd_monotone; rewrite Heq;
    apply Qle_refl.
Qed.

Lemma rnd_between (a b : Z) (x : Q) :
  -2 <= a <= 2 -> -2 <= b <= 2 ->
  (inject_Z a <= x <= inject_Z b)%Q ->
  (inject_Z a <= rnd x <= inject_Z b)%Q.
Proof.
  intros Ha Hb [Hlo Hhi]. split.
  - rewrite <- (rnd_small_int a Ha). by apply rnd_monotone.
  - rewrite <- (rnd_small_int b Hb). by apply rnd_monotone.
Qed.

Lemma rnd_at (z : Z) (x : Q) :
  -2 <= z <= 2 -> (x == inject_Z z)%Q -> (rnd x == inject_Z z)%Q.
Proof.
  intros Hz Hx. rewrite (rnd_proper _ _ Hx). by apply rnd_small_int.
Qed.

Lemma normalized_with_range (lo hi v : Z) :
  lo <> hi -> (lo <= v <= hi \/ hi <= v <= lo) ->
  exists n,
    normalized_with rnd lo hi v = Some n /\ (-1 <= n <= 1)%Q /\
    (v = lo -> (n == 1)%Q) /\ (v = hi -> (n == -1)%Q).
Proof.
  intros Hne Hrange. unfold normalized_with.
  destruct (decide (hi - lo = 0)) as [|Hd]; [lia|].
  eexists. split; [reflexivity|].
  set (A := inject_Z (v - lo)). set (D := inject_Z (hi - lo)).
  assert (HD : ~ (D == 0)%Q).
  { unfold D, Qeq, inject_Z. cbn [Qnum Qden]. lia. }
  assert (Hscaled : ((A / D) * D == A)%Q) by (field; exact HD).
  assert (Hsign : (0 <= A <= D /\ 0 < D \/ D <= A <= 0 /\ D < 0)%Q).
  { unfold A, D, Qle, Qlt, inject_Z. cbn [Qnum Qden]. lia. }
  change (inject_Z (-2)) with (-2 # 1)%Q.
  assert (Ht : (inject_Z 0 <= A / D <= inject_Z 1)%Q).
  { change (inject_Z 0) with 0%Q. change (inject_Z 1) with 1%Q.
    set (t := (A / D)%Q) in *. split; nra. }
  apply (rnd_between 0 1) in Ht; [|lia|lia].
  change (inject_Z 0) with 0%Q in Ht. change (inject_Z 1) with 1%Q in Ht.
  set (r1 := rnd (A / D)) in *.
  assert (H2 : (inject_Z (-2) <= r1 * (-2 # 1) <= inject_Z 0)%Q).
  { change (inject_Z (-2)) with (-2 # 1)%Q. change (inject_Z 0) with 0%Q.
    split; lra. }
  apply (rnd_between (-2) 0) in H2; [|lia|lia].
  change (inject_Z (-2)) with (-2 # 1)%Q in H2.
  change (inject_Z 0) with 0%Q in H2.
  set (r2 := rnd (r1 * (-2 # 1))) in *.
  assert (H3 : (inject_Z (-1) <= r2 + 1 <= inject_Z 1)%Q).
  { change (inject_Z (-1)) with (-1 # 1)%Q. change (inject_Z 1) with 1%Q.
    split; lra. }
  apply (rnd_between (-1) 1) in H3; [|lia|lia].
  split; [exact H3|]. split.
  - intros ->.
    assert (E1 : (r1 == inject_Z 0)%Q).
    { apply rnd_at; [lia|]. unfold A. rewrite Z.sub_diag.
      change (inject_Z 0) with 0%Q. field. exact HD. }
    assert (E2 : (r2 == inject_Z 0)%Q).
    { apply rnd_at; [lia|]. rewrite E1. reflexivity. }
    apply (rnd_at 1); [lia|]. rewrite E2. reflexivity.
  - intros ->.
    assert (E1 : (r1 == inject_Z 1)%Q).
    { apply rnd_at; [lia|]. change A with D.
      change (inject_Z 1) with 1%Q. field. exact HD. }
    assert (E2 : (r2 == inject_Z (-2))%Q).
    { apply rnd_at; [lia|]. rewrite E1. reflexivity. }
    apply (rnd_at (-1)); [lia|]. rewrite E2. reflexivity.
Qed.

End Rounding.

Lemma normalized_with_identity (lo hi v : Z) :
  normalized_with (fun x => x) lo hi v = normalized lo hi v.
Proof. reflexivity. Qed.

Lemma round_to_grid_monotone (x y : Q) :
  (x <= y)%Q -> (round_to_grid x <= round_to_grid y)%Q.
Proof.
  intros Hxy. unfold round_to_grid.
  assert (Hf : Qfloor (x * 1024) <= Qfloor (y * 1024)).
  { apply Qfloor_resp_le. lra. }
  rewrite Zle_Qle in Hf.
  apply Qmult_le_compat_r; [exact Hf|]. by vm_compute.
Qed.

Lemma round_to_grid_int (z : Z) : (round_to_grid (inject_Z z) == inject_Z z)%Q.
Proof.
  unfold round_to_grid.
  change 1024%Q with (inject_Z 1024). rewrite <- inject_Z_mult, Qfloor_Z.
  rewrite inject_Z_mult. field.
Qed.

(** The same holds on the grid, where hardly any quotient is exact. *)
Lemma normalized_on_grid (lo hi v : Z) :
  lo <> hi -> (lo <= v <= hi \/ hi <= v <= lo) ->
  exists n,
    normalized_with round_to_grid lo hi v = Some n /\ (-1 <= n <= 1)%Q /\
    (v = lo -> (n == 1)%Q) /\ (v = hi -> (n == -1)%Q).
Proof.
  apply normalized_with_range.
  - exact round_to_grid_monotone.
  - intros z _. apply round_to_grid_int.
Qed.

Example grid_sample :
  normalized_with round_to_grid 0 255 100 = Some (222 # 1024).
Proof. vm_compute. reflexivity. Qed.

(** ** Binary64 *)

(** On binary64 floats, every range of the registry sends its first end to
    [1.0], its second end to [-1.0], and each integer between them into
    [[-1.0, 1.0]]. *)
Example binary64_registry_ranges : Binary64.registry_ranges_ok = true.
Proof. vm_compute. reflexivity. Qed.

(** The largest fraction [modf] can return, scaled to nanoseconds, stays
    below [10^9] after rounding. *)
Example binary64_largest_fraction :
  PrimFloat.ltb Binary64.largest_scaled_fraction
    (Binary64.of_int 1000000000) = true.
Proof. vm_compute. reflexivity. Qed.

(** * Further properties *)

(** ** Lifting invariants from one event to a run *)

Section Invariants.

Variable P : JoystickRos2 -> Prop.
Variable good : InputEvent -> Prop.
Hypothesis P_handle :
  forall event self, good event -> P self ->
    P (node_of (handle_event event self)).
Hypothesis P_clock : forall self, P self -> P (node_of (time_time self)).
Hypothesis P_publish : forall self, P self -> P (after_publish self).

Lemma invariant_autorepeat self : P self -> P (node_of (autorepeat self)).
Proof.
  intros HP. destruct (autorepeat_condition_dec self) as [Hyes|Hno].
  - rewrite (autorepeat_fires self Hyes). cbn [node_of].
    by apply P_publish, P_clock.
  - unfold autorepeat. run_monad.
    destruct (Qlt_le_dec 0 _) as [Hpos|]; [|exact HP]. read_fields.
    destruct (Qlt_le_dec _ _) as [Hgap|]; [|by apply P_clock].
    destruct Hno. by split.
Qed.

Lemma invariant_for_events events fails self :
  Forall good events -> P self ->
  P (node_of (for_events events fails self)).
Proof.
  intros Hall. revert self. induction Hall as [|event rest Hev _ IH];
    intros self HP.
  - rewrite for_events_nil. by destruct fails.
  - cbn [for_events]. run_monad.
    pose proof (P_handle event self Hev HP) as H1.
    destruct (handle_event event self) as [[] self1|x self1];
      cbn [node_of] in *; [by apply IH|exact H1].
Qed.

Lemma invariant_run_one gamepads self :
  match gamepads with
  | [] => True
  | gamepad :: _ => Forall good (pending gamepad)
  end ->
  P self -> P (node_of (run_one gamepads self)).
Proof.
  intros Hgood HP. destruct gamepads as [|gamepad others]; [exact HP|].
  unfold run_one, try_except_pass. run_monad.
  pose proof (invariant_for_events (pending gamepad) (read_fails gamepad)
                self Hgood HP) as Hdrain.
  destruct (for_events _ _ self) as [[] self1|x self1]; cbn [node_of] in *.
  - by apply invariant_autorepeat.
  - destruct (decide (x = OSError)); [|exact Hdrain].
    by apply invariant_autorepeat.
Qed.

Lemma invariant_spin ticks self :
  Forall (fun gamepads =>
            match gamepads with
            | [] => True
            | gamepad :: _ => Forall good (pending gamepad)
            end) ticks ->
  P self -> P (node_of (spin ticks self)).
Proof.
  intros Hall. revert self. induction Hall as [|gamepads rest Hg _ IH];
    intros self HP; [exact HP|].
  cbn [spin]. run_monad.
  pose proof (invariant_run_one gamepads self Hg HP) as H1.
  destruct (run_one gamepads self) as [[] self1|x self1];
    cbn [node_of] in *; [by apply IH|exact H1].
Qed.

End Invariants.

Lemma any_events (events : list InputEvent) : Forall (fun _ => True) events.
Proof. by apply Forall_forall. Qed.

Lemma any_ticks (ticks : list (list GamePad)) :
  Forall (fun gamepads : list GamePad =>
            match gamepads with
            | [] => True
            | gamepad :: _ => Forall (fun _ => True) (pending gamepad)
            end) ticks.
Proof.
  apply Forall_forall. intros [|gamepad others] _; [exact I|apply any_events].
Qed.

(** ** Exceptions *)

Lemma registry_value_maps_ok :
  map_Forall (fun _ p => value_map_ok p = true) JOYSTICK_CODE_VALUE_MAP.
Proof. compute_done. Qed.

Lemma registry_range name code_map value_map k lo hi :
  JOYSTICK_CODE_VALUE_MAP !! name = Some (code_map, value_map) ->
  value_map !! k = Some (lo, hi) ->
  0 <= k < 8 /\ lo <> hi.
Proof.
  intros Hreg Hvm.
  pose proof (registry_value_maps_ok name _ Hreg) as Hp.
  unfold value_map_ok in Hp. apply bool_decide_eq_true in Hp.
  specialize (Hp k (lo, hi) Hvm). cbn [fst snd] in Hp.
  apply andb_true_iff in Hp as [Hk Hne].
  apply bool_decide_eq_true in Hk. split; [exact Hk|].
  apply negb_true_iff, Z.eqb_neq in Hne. exact Hne.
Qed.

Lemma list_setitem_none {A} (l : list A) (i : Z) (x : A) :
  list_setitem l i x = None -> ~ (0 <= i < Z.of_nat (length l)).
Proof.
  unfold list_setitem. intros H Hi. by rewrite decide_True in H.
Qed.

Lemma normalize_key_value_none dz lo hi v :
  normalize_key_value dz lo hi v = None -> lo = hi.
Proof.
  unfold normalize_key_value, normalized.
  destruct (decide (hi - lo = 0)) as [Heq|]; [lia|].
  by destruct (Qlt_le_dec _ _).
Qed.

(** X1.  Handling one event is all or nothing: if the loop body raises,
    the node is exactly as before; and on a node with 8 axes and 11
    buttons the exception is always a [KeyError], caused by a model that
    is not in the registry or by an [Absolute] event whose code resolves
    to an index without a range in the value map. *)
Theorem handle_event_exception_safe (self self' : JoystickRos2)
    (event : InputEvent) (x : exn) :
  wf_node self ->
  handle_event event self = Raise x self' ->
  self' = self /\ x = KeyError /\
  (JOYSTICK_CODE_VALUE_MAP !! device_name event = None \/
   exists code_map value_map key_code,
     JOYSTICK_CODE_VALUE_MAP !! device_name event
       = Some (code_map, value_map) /\
     code_map !! code event = Some key_code /\
     ev_type event = "Absolute" /\
     value_map !! key_code = None).
Proof.
  intros [Hax Hbt] Hrun. unfold handle_event in Hrun. revert Hrun. run_monad.
  destruct (JOYSTICK_CODE_VALUE_MAP !! device_name event)
    as [[code_map value_map]|] eqn:Hreg.
  2:{ intros [= <- <-]. split; [done|]. split; [done|by left]. }
  destruct (code_map !! code event) as [key_code|] eqn:Hcode; [|discriminate].
  pose proof (registry_index _ _ _ _ _ Hreg Hcode) as Hk.
  destruct (String.eqb (ev_type event) "Key") eqn:Hkey.
  { destruct (list_setitem _ _ _) eqn:Hset.
    - rewrite publish_joy_eq. discriminate.
    - apply list_setitem_none in Hset. rewrite Hbt in Hset. lia. }
  destruct (String.eqb (ev_type event) "Absolute") eqn:Habs; [|discriminate].
  apply String.eqb_eq in Habs.
  destruct (value_map !! key_code) as [[lo hi]|] eqn:Hvm.
  2:{ intros [= <- <-]. split; [done|]. split; [done|]. right.
      by exists code_map, value_map, key_code. }
  destruct (registry_range _ _ _ _ _ _ Hreg Hvm) as [Hk8 Hne].
  cbn [fst snd].
  destruct (normalize_key_value _ _ _ _) eqn:Hnorm.
  2:{ by apply normalize_key_value_none in Hnorm. }
  destruct (list_setitem _ _ _) eqn:Hset.
  2:{ apply list_setitem_none in Hset. rewrite Hax in Hset. lia. }
  read_fields.
  destruct (last_event self); [destruct (negb _)|];
    [| destruct (Qlt_le_dec _ _) |]; rewrite ?publish_joy_eq; discriminate.
Qed.

Lemma handle_event_exception_safe_witness :
  wf_node (default_node fast_clock) /\
  handle_event (generic_button 1) (default_node fast_clock)
    = Raise KeyError (default_node fast_clock) /\
  JOYSTICK_CODE_VALUE_MAP !! device_name (generic_button 1) = None.
Proof.
  assert (Hwf : wf_node (default_node fast_clock)) by (split; reflexivity).
  assert (Hnone : JOYSTICK_CODE_VALUE_MAP !! device_name (generic_button 1)
                    = None) by (vm_compute; reflexivity).
  pose proof (unregistered_model_raises (default_node fast_clock)
                (generic_button 1) Hnone) as Hraise.
  split; [exact Hwf|]. split; [exact Hraise|].
  destruct (handle_event_exception_safe _ _ _ _ Hwf Hraise)
    as (_ & _ & [H | (cm & vm & k & H & _)]); [exact H|].
  rewrite Hnone in H. discriminate.
Defined.

Lemma handle_event_raise_unchanged self self' event x :
  handle_event event self = Raise x self' -> self' = self /\ x <> OSError.
Proof.
  unfold handle_event. run_monad.
  destruct (JOYSTICK_CODE_VALUE_MAP !! device_name event)
    as [[code_map value_map]|]; [|by intros [= <- <-]].
  destruct (code_map !! code event) as [key_code|]; [|discriminate].
  destruct (String.eqb (ev_type event) "Key").
  { destruct (list_setitem _ _ _); [|by intros [= <- <-]].
    rewrite publish_joy_eq. discriminate. }
  destruct (String.eqb (ev_type event) "Absolute"); [|discriminate].
  destruct (value_map !! key_code) as [value_range|]; [|by intros [= <- <-]].
  destruct (normalize_key_value _ _ _ _); [|by intros [= <- <-]].
  destruct (list_setitem _ _ _); [|by intros [= <- <-]].
  read_fields.
  destruct (last_event self); [destruct (negb _)|];
    [| destruct (Qlt_le_dec _ _) |]; rewrite ?publish_joy_eq; discriminate.
Qed.

Lemma for_events_app pre rest fails self self1 :
  for_events pre false self = Ret tt self1 ->
  for_events (pre ++ rest) fails self = for_events rest fails self1.
Proof.
  revert self. induction pre as [|event pre IH]; intros self.
  - by intros [= ->].
  - cbn [for_events app]. run_monad.
    destruct (handle_event event self) as [[] self0|x self0]; [|discriminate].
    apply IH.
Qed.

(** X2.  When an event of the drain raises, [run_one] stops there and
    raises the same exception: the events before it have taken effect,
    the events after it are not handled, and the autorepeat test is
    skipped. *)
Theorem run_one_stops_at_exception (gamepad : GamePad)
    (others : list GamePad) (pre post : list InputEvent) (event : InputEvent)
    (self self1 self1' : JoystickRos2) (x : exn) :
  pending gamepad = pre ++ event :: post ->
  for_events pre false self = Ret tt self1 ->
  handle_event event self1 = Raise x self1' ->
  run_one (gamepad :: others) self = Raise x self1.
Proof.
  intros Hpending Hpre Hraise.
  destruct (handle_event_raise_unchanged _ _ _ _ Hraise) as [-> Hx].
  unfold run_one, try_except_pass. run_monad.
  rewrite Hpending, (for_events_app _ _ _ _ _ Hpre).
  cbn [for_events]. run_monad. rewrite Hraise.
  by rewrite decide_False.
Qed.

Lemma run_one_stops_at_exception_witness :
  exists self1,
    for_events [button_south 1] false (default_node fast_clock)
      = Ret tt self1 /\
    run_one [broken_pad] (default_node fast_clock) = Raise KeyError self1.
Proof.
  assert (Hwf : wf_node (default_node fast_clock)) by (split; reflexivity).
  assert (Hrec : recognized (button_south 1))
    by (apply recognized_intro; vm_compute; reflexivity).
  destruct (button_event_outcome _ _ Hwf Hrec eq_refl)
    as (self1 & _ & _ & _ & _ & _ & _ & Hrun & _).
  assert (Hpre : for_events [button_south 1] false (default_node fast_clock)
                   = Ret tt self1).
  { cbn [for_events]. run_monad. by rewrite Hrun. }
  exists self1. split; [exact Hpre|].
  apply (run_one_stops_at_exception broken_pad [] [button_south 1]
           [stick_x 5] (generic_button 1) _ self1 self1 KeyError).
  - reflexivity.
  - exact Hpre.
  - apply unregistered_model_raises. vm_compute. reflexivity.
Defined.

Lemma drain_ignores_read_failure events self :
  try_except_pass (for_events events true) OSError self
    = try_except_pass (for_events events false) OSError self.
Proof.
  revert self. induction events as [|event rest IH]; intros self.
  - reflexivity.
  - specialize (IH) . unfold try_except_pass in *. cbn [for_events]. run_monad.
    destruct (handle_event event self) as [[] self1|x self1];
      [apply IH|reflexivity].
Qed.

(** X3.  An [OSError] raised by the gamepad iterator is absorbed without
    trace: [run_one] ends in the same node, with the same messages
    published, as when the iterator had simply stopped after the same
    events. *)
Theorem read_failure_absorbed (events : list InputEvent)
    (others others' : list GamePad) (self : JoystickRos2) :
  run_one ({| pending := events; read_fails := true |} :: others) self
    = run_one ({| pending := events; read_fails := false |} :: others') self.
Proof.
  unfold run_one. cbn [pending read_fails]. run_monad.
  fold (try_except_pass (for_events events true) OSError self).
  fold (try_except_pass (for_events events false) OSError self).
  by rewrite drain_ignores_read_failure.
Qed.

Lemma keeps_shape_refl self : keeps_shape self self.
Proof. unfold keeps_shape. auto using same_setup_refl. Qed.

Lemma keeps_shape_trans s1 s2 s3 :
  keeps_shape s1 s2 -> keeps_shape s2 s3 -> keeps_shape s1 s3.
Proof.
  unfold keeps_shape. intros (?&?&?&?&?) (?&?&?&?&?).
  repeat split; try congruence; try lia.
  all: eapply same_setup_trans; eauto.
Qed.

Lemma list_setitem_length {A} (l l' : list A) (i : Z) (x : A) :
  list_setitem l i x = Some l' -> length l' = length l.
Proof.
  unfold list_setitem. repeat case_decide; intros [= <-];
    apply length_insert.
Qed.

Lemma keeps_shape_publish self : keeps_shape self (after_publish self).
Proof.
  unfold keeps_shape, same_setup. read_fields. repeat split; auto; lia.
Qed.

Lemma keeps_shape_clock self : keeps_shape self (node_of (time_time self)).
Proof.
  unfold keeps_shape, same_setup. read_fields. repeat split; auto.
Qed.

Lemma keeps_shape_handle event self :
  keeps_shape self (node_of (handle_event event self)).
Proof.
  pose proof (keeps_shape_refl self) as Hrefl.
  assert (Hpub : forall (s : JoystickRos2) e,
            keeps_shape self s ->
            keeps_shape self (set_last_event e (after_publish s))).
  { intros s e Hs. eapply keeps_shape_trans; [exact Hs|].
    unfold keeps_shape, same_setup. read_fields. repeat split; auto; lia. }
  unfold handle_event. run_monad.
  destruct (JOYSTICK_CODE_VALUE_MAP !! device_name event) as [[cm vm]|];
    [|exact Hrefl].
  destruct (cm !! code event) as [k|]; [|exact Hrefl].
  destruct (String.eqb _ "Key").
  { destruct (list_setitem _ _ _) as [b|] eqn:Hset; [|exact Hrefl].
    apply list_setitem_length in Hset.
    rewrite publish_joy_eq. cbn [node_of]. apply Hpub.
    unfold keeps_shape, same_setup. read_fields. repeat split; auto. }
  destruct (String.eqb _ "Absolute"); [|exact Hrefl].
  destruct (vm !! k) as [value_range|]; [|exact Hrefl].
  destruct (normalize_key_value _ _ _ _); [|exact Hrefl].
  destruct (list_setitem _ _ _) as [a|] eqn:Hset; [|exact Hrefl].
  apply list_setitem_length in Hset.
  assert (Hstored : keeps_shape self (set_joy (set_axes a (joy self)) self)).
  { unfold keeps_shape, same_setup. read_fields. repeat split; auto. }
  read_fields.
  destruct (last_event self) as [last|].
  2:{ rewrite publish_joy_eq. cbn [node_of]. by apply Hpub. }
  destruct (negb _).
  { rewrite publish_joy_eq. cbn [node_of]. by apply Hpub. }
  destruct (Qlt_le_dec _ _).
  { rewrite publish_joy_eq. cbn [node_of]. apply Hpub.
    eapply keeps_shape_trans; [exact Hstored|apply keeps_shape_clock]. }
  cbn [node_of].
  eapply keeps_shape_trans; [exact Hstored|].
  unfold keeps_shape, same_setup. read_fields. repeat split; auto.
Qed.

(** X4.  Whatever the events and however a run of the timer ends, in a
    return or in an exception, the tunables, the clock and the frame id are
    untouched, the clock is only read forward, and the axes and buttons
    keep their lengths: 8 and 11 from start-up on. *)
Theorem run_keeps_shape (ticks : list (list GamePad)) (self : JoystickRos2) :
  keeps_shape self (node_of (spin ticks self)) /\
  (wf_node self -> wf_node (node_of (spin ticks self))).
Proof.
  assert (H : keeps_shape self (node_of (spin ticks self))).
  { apply (invariant_spin (keeps_shape self) (fun _ => True)).
    - intros event s _ Hs. eapply keeps_shape_trans; [exact Hs|].
      apply keeps_shape_handle.
    - intros s Hs. eapply keeps_shape_trans; [exact Hs|].
      apply keeps_shape_clock.
    - intros s Hs. eapply keeps_shape_trans; [exact Hs|].
      apply keeps_shape_publish.
    - apply any_ticks.
    - apply keeps_shape_refl. }
  split; [exact H|].
  destruct H as (Ha & Hb & _). intros [Hax Hbt]. split; congruence.
Qed.

Lemma run_keeps_shape_witness :
  wf_node (default_node fast_clock) /\
  wf_node (node_of (spin [[broken_pad]; [busy_pad]]
                      (default_node fast_clock))).
Proof.
  assert (Hwf : wf_node (default_node fast_clock)) by (split; reflexivity).
  split; [exact Hwf|].
  exact (proj2 (run_keeps_shape [[broken_pad]; [busy_pad]]
                  (default_node fast_clock)) Hwf).
Defined.

(** X5.  [detect_devices] only warns: when it reports the first gamepad
    as not supported, [run_one] still reads that gamepad, and the first
    event it yields makes [run_one] raise a [KeyError] with the node
    unchanged. *)
Theorem unsupported_device_not_suspended (name : string)
    (names : list string) (gamepad : GamePad) (others : list GamePad)
    (event : InputEvent) (rest : list InputEvent) (self : JoystickRos2) :
  detect_devices (name :: names) = Some Joystick_not_supported ->
  pending gamepad = event :: rest ->
  device_name event = name ->
  run_one (gamepad :: others) self = Raise KeyError self.
Proof.
  intros Hdetect Hpending Hname. cbn [detect_devices] in Hdetect.
  destruct (JOYSTICK_CODE_VALUE_MAP !! name) eqn:Hreg; [discriminate|].
  rewrite <- Hname in Hreg.
  unfold run_one, try_except_pass. run_monad. rewrite Hpending.
  cbn [for_events]. run_monad.
  by rewrite (unregistered_model_raises self event Hreg).
Qed.

Lemma unsupported_device_not_suspended_witness :
  detect_devices ["Generic USB Joystick"] = Some Joystick_not_supported /\
  run_one [{| pending := [generic_button 1]; read_fails := false |}]
          (default_node fast_clock)
    = Raise KeyError (default_node fast_clock).
Proof.
  assert (Hdetect : detect_devices ["Generic USB Joystick"]
                      = Some Joystick_not_supported)
    by (vm_compute; reflexivity).
  split; [exact Hdetect|].
  apply (unsupported_device_not_suspended "Generic USB Joystick" []
           {| pending := [generic_button 1]; read_fails := false |} []
           (generic_button 1) [] _ Hdetect); reflexivity.
Defined.

(** ** The normaliser as a function of the raw value *)

Lemma inject_Z_sub (a b : Z) : (inject_Z (a - b) == inject_Z a - inject_Z b)%Q.
Proof. unfold Z.sub. by rewrite inject_Z_plus, inject_Z_opp. Qed.

Lemma inject_Z_sub_nonzero (a b : Z) :
  a <> b -> ~ (inject_Z a - inject_Z b == 0)%Q.
Proof.
  intros Hne H. rewrite <- inject_Z_sub in H.
  unfold Qeq, inject_Z in H. cbn [Qnum Qden] in H. lia.
Qed.

Lemma normalized_value (lo hi v : Z) (n : Q) :
  normalized lo hi v = Some n ->
  lo <> hi /\
  (n == 1 - 2 * ((inject_Z v - inject_Z lo) / (inject_Z hi - inject_Z lo)))%Q.
Proof.
  unfold normalized. destruct (decide (hi - lo = 0)) as [|Hd]; [discriminate|].
  intros [= <-]. split; [lia|].
  assert (Hne : hi <> lo) by lia.
  pose proof (inject_Z_sub_nonzero hi lo Hne) as HD.
  rewrite !inject_Z_sub. change (inject_Z (-2)) with (-2 # 1)%Q.
  field. exact HD.
Qed.

(** [n * (hi - lo) = (hi - lo) - 2 * (v - lo)], free of division. *)
Lemma normalized_scaled (lo hi v : Z) (n : Q) :
  normalized lo hi v = Some n ->
  (n * (inject_Z hi - inject_Z lo)
     == (inject_Z hi - inject_Z lo) - 2 * (inject_Z v - inject_Z lo))%Q.
Proof.
  intros Hn. destruct (normalized_value lo hi v n Hn) as [Hne ->].
  field. apply inject_Z_sub_nonzero. congruence.
Qed.

(** ** The normaliser up to rounding errors *)

Section RoundingError.

Variable rnd : Q -> Q.
Variables eps bound : Q.
Hypothesis eps_nonneg : (0 <= eps)%Q.
Hypothesis rnd_error :
  forall x, (Qabs x <= bound)%Q -> (Qabs (rnd x - x) <= eps)%Q.

Lemma rnd_error_interval (x : Q) :
  (- bound <= x <= bound)%Q -> (x - eps <= rnd x <= x + eps)%Q.
Proof.
  intros Hx. assert (H : (Qabs (rnd x - x) <= eps)%Q).
  { apply rnd_error. by apply Qabs_Qle_condition. }
  apply Qabs_Qle_condition in H. split; lra.
Qed.

(** Three rounded operations stay within four rounding errors of the
    exact value. *)
Lemma normalized_with_close (lo hi v : Z) (n0 : Q) :
  normalized lo hi v = Some n0 ->
  (2 * inject_Z (Z.abs (v - lo)) + 3 * eps + 1 <= bound)%Q ->
  exists n,
    normalized_with rnd lo hi v = Some n /\
    (n0 - 4 * eps <= n <= n0 + 4 * eps)%Q.
Proof.
  unfold normalized, normalized_with.
  destruct (decide (hi - lo = 0)) as [|Hd]; [discriminate|].
  intros [= <-] Hbound. eexists. split; [reflexivity|].
  set (A := inject_Z (v - lo)) in *. set (D := inject_Z (hi - lo)) in *.
  set (a := inject_Z (Z.abs (v - lo))) in *.
  assert (HD : ~ (D == 0)%Q).
  { unfold D, Qeq, inject_Z. cbn [Qnum Qden]. lia. }
  assert (Hscaled : ((A / D) * D == A)%Q) by (field; exact HD).
  assert (HA : (- a <= A <= a)%Q).
  { unfold a, A. rewrite <- inject_Z_opp, <- !Zle_Qle. lia. }
  assert (HD1 : (1 <= D \/ D <= -1)%Q).
  { unfold D. change 1%Q with (inject_Z 1).
    change (-1)%Q with (inject_Z (-1)). rewrite <- !Zle_Qle. lia. }
  assert (Ha0 : (0 <= a)%Q).
  { unfold a. change 0%Q with (inject_Z 0). rewrite <- Zle_Qle. lia. }
  change (inject_Z (-2)) with (-2 # 1)%Q.
  set (t := (A / D)%Q) in *.
  assert (Ht : (- a <= t <= a)%Q) by (split; nra).
  assert (H1 : (t - eps <= rnd t <= t + eps)%Q)
    by (apply rnd_error_interval; split; lra).
  set (r1 := rnd t) in *.
  assert (H2 : (r1 * (-2 # 1) - eps <= rnd (r1 * (-2 # 1))
                  <= r1 * (-2 # 1) + eps)%Q)
    by (apply rnd_error_interval; split; lra).
  set (r2 := rnd (r1 * (-2 # 1))) in *.
  assert (H3 : (r2 + 1 - eps <= rnd (r2 + 1) <= r2 + 1 + eps)%Q)
    by (apply rnd_error_interval; split; lra).
  split; lra.
Qed.

End RoundingError.

Lemma binary64_like_close (rnd : Q -> Q) (lo hi v : Z) (n0 : Q) :
  binary64_like rnd ->
  normalized lo hi v = Some n0 ->
  Z.abs (v - lo) <= 4294967296 ->
  exists n,
    normalized_with rnd lo hi v = Some n /\
    (n0 - (4 # 1048576) <= n <= n0 + (4 # 1048576))%Q.
Proof.
  intros Hrnd Hn Hv.
  destruct (normalized_with_close rnd (1 # 1048576) 17179869184
              ltac:(discriminate) Hrnd lo hi v n0 Hn) as (n & Hn' & Hclose).
  - assert (H : (inject_Z (Z.abs (v - lo)) <= inject_Z 4294967296)%Q)
      by (by rewrite <- Zle_Qle).
    change (inject_Z 4294967296) with 4294967296%Q in H. lra.
  - exists n. split; [exact Hn'|]. lra.
Qed.

Lemma round_to_fine_grid_like : binary64_like round_to_fine_grid.
Proof.
  intros x _. unfold round_to_fine_grid.
  pose proof (Qfloor_le (x * 1048576)) as Hlo.
  pose proof (Qlt_floor (x * 1048576)) as Hhi.
  rewrite inject_Z_plus in Hhi. change (inject_Z 1) with 1%Q in Hhi.
  set (f := inject_Z (Qfloor (x * 1048576))) in *.
  apply Qabs_Qle_condition.
  assert (E : (f / 1048576 == f * (1 # 1048576))%Q) by (field).
  rewrite E. split; lra.
Qed.

Lemma identity_like : binary64_like (fun x => x).
Proof.
  intros x _. apply Qabs_Qle_condition. split; lra.
Qed.

(** How far outside [[-1, 1]], and how far apart, exact values are on
    ranges at most [2^16] wide. *)
Lemma normalized_margin (lo hi v : Z) (n : Q) :
  normalized lo hi v = Some n -> Z.abs (hi - lo) <= 65536 ->
  (lo < hi < v \/ v < hi < lo -> (n <= -1 - (1 # 32768))%Q) /\
  (v < lo < hi \/ hi < lo < v -> (1 + (1 # 32768) <= n)%Q).
Proof.
  intros Hn Hwide. pose proof (normalized_scaled lo hi v n Hn) as Hs.
  assert (HD : (- 65536 <= inject_Z hi - inject_Z lo <= 65536)%Q).
  { rewrite <- inject_Z_sub. change 65536%Q with (inject_Z 65536).
    change (- 65536)%Q with (inject_Z (- 65536)).
    rewrite <- !Zle_Qle. lia. }
  set (H := inject_Z hi) in *. set (L := inject_Z lo) in *.
  set (V := inject_Z v) in *.
  split; intros Hcase.
  - assert (Hq : (L < H /\ H + 1 <= V \/ V + 1 <= H /\ H < L)%Q).
    { unfold H, L, V. change 1%Q with (inject_Z 1).
      rewrite <- !inject_Z_plus, <- !Zlt_Qlt, <- !Zle_Qle. lia. }
    nra.
  - assert (Hq : (V + 1 <= L /\ L < H \/ H < L /\ L + 1 <= V)%Q).
    { unfold H, L, V. change 1%Q with (inject_Z 1).
      rewrite <- !inject_Z_plus, <- !Zlt_Qlt, <- !Zle_Qle. lia. }
    nra.
Qed.

Lemma normalized_gap (lo hi v1 v2 : Z) (n1 n2 : Q) :
  normalized lo hi v1 = Some n1 -> normalized lo hi v2 = Some n2 ->
  v1 < v2 -> Z.abs (hi - lo) <= 65536 ->
  (lo < hi -> (n2 + (1 # 32768) <= n1)%Q) /\
  (hi < lo -> (n1 + (1 # 32768) <= n2)%Q).
Proof.
  intros H1 H2 Hlt Hwide.
  pose proof (normalized_scaled _ _ _ _ H1) as Hs1.
  pose proof (normalized_scaled _ _ _ _ H2) as Hs2.
  assert (HD : (- 65536 <= inject_Z hi - inject_Z lo <= 65536)%Q).
  { rewrite <- inject_Z_sub. change 65536%Q with (inject_Z 65536).
    change (- 65536)%Q with (inject_Z (- 65536)).
    rewrite <- !Zle_Qle. lia. }
  assert (Hv : (inject_Z v1 + 1 <= inject_Z v2)%Q).
  { change 1%Q with (inject_Z 1). rewrite <- inject_Z_plus, <- Zle_Qle. lia. }
  set (H := inject_Z hi) in *. set (L := inject_Z lo) in *.
  set (V1 := inject_Z v1) in *. set (V2 := inject_Z v2) in *.
  split; intros Hord.
  - assert (HL : (L < H)%Q) by (unfold H, L; by rewrite <- Zlt_Qlt). nra.
  - assert (HL : (H < L)%Q) by (unfold H, L; by rewrite <- Zlt_Qlt). nra.
Qed.

(** X6.  The normaliser does not clamp.  On a range at most [2^16] wide
    and a raw value within [2^32] of [rawMin], a raw value beyond [rawMax]
    gives a value below [-1] and one beyond [rawMin] a value above [1],
    and with a deadzone of at most 1 that value passes the cutoff.  This
    holds in exact arithmetic and under every rounding as accurate as
    binary64. *)
Theorem normalized_outside_range (dz : Q) (lo hi v : Z) (n : Q) :
  normalized lo hi v = Some n ->
  Z.abs (hi - lo) <= 65536 -> Z.abs (v - lo) <= 4294967296 ->
  (lo < hi < v \/ v < hi < lo -> (n < -1)%Q) /\
  (v < lo < hi \/ hi < lo < v -> (1 < n)%Q) /\
  ((dz <= 1)%Q -> ~ (lo <= v <= hi \/ hi <= v <= lo) ->
     normalize_key_value dz lo hi v = Some n) /\
  forall rnd, binary64_like rnd ->
    exists n',
      normalized_with rnd lo hi v = Some n' /\
      (lo < hi < v \/ v < hi < lo -> (n' < -1)%Q) /\
      (v < lo < hi \/ hi < lo < v -> (1 < n')%Q) /\
      ((dz <= 1)%Q -> ~ (lo <= v <= hi \/ hi <= v <= lo) ->
         (dz < Qabs n')%Q).
Proof.
  intros Hn Hwide Hnear.
  destruct (normalized_margin lo hi v n Hn Hwide) as [Hlow Hhigh].
  destruct (normalized_value lo hi v n Hn) as [Hne _].
  assert (Hsides : ~ (lo <= v <= hi \/ hi <= v <= lo) ->
            (lo < hi < v \/ v < hi < lo) \/ (v < lo < hi \/ hi < lo < v))
    by lia.
  split; [intros Hc; apply Hlow in Hc; lra|].
  split; [intros Hc; apply Hhigh in Hc; lra|].
  split.
  - intros Hdz Hout. rewrite (normalize_key_value_cases dz lo hi v n Hn).
    destruct (Qlt_le_dec dz (Qabs n)) as [|Hle]; [reflexivity|].
    exfalso. destruct (Hsides Hout) as [Hc|Hc].
    + apply Hlow in Hc.
      assert (Habs : (Qabs n == - n)%Q) by (apply Qabs_neg; lra). lra.
    + apply Hhigh in Hc.
      assert (Habs : (Qabs n == n)%Q) by (apply Qabs_pos; lra). lra.
  - intros rnd Hrnd.
    destruct (binary64_like_close rnd lo hi v n Hrnd Hn Hnear)
      as (n' & Hn' & Hclose).
    exists n'. split; [exact Hn'|].
    split; [intros Hc; apply Hlow in Hc; lra|].
    split; [intros Hc; apply Hhigh in Hc; lra|].
    intros Hdz Hout. destruct (Hsides Hout) as [Hc|Hc].
    + apply Hlow in Hc.
      assert (Habs : (Qabs n' == - n')%Q) by (apply Qabs_neg; lra). lra.
    + apply Hhigh in Hc.
      assert (Habs : (Qabs n' == n')%Q) by (apply Qabs_pos; lra). lra.
Qed.

Lemma normalized_outside_range_witness :
  normalized 0 255 300 = Some (-345 # 255) /\ (-345 # 255 < -1)%Q /\
  exists n',
    normalized_with round_to_fine_grid 0 255 300 = Some n' /\ (n' < -1)%Q.
Proof.
  assert (Hn : normalized 0 255 300 = Some (-345 # 255))
    by (vm_compute; reflexivity).
  destruct (normalized_outside_range DEFAULT_DEADZONE 0 255 300 _ Hn)
    as (Hlow & _ & _ & Hrounded); [lia|lia|].
  split; [exact Hn|]. split; [apply Hlow; lia|].
  destruct (Hrounded round_to_fine_grid round_to_fine_grid_like)
    as (n' & Hn' & Hlow' & _).
  exists n'. split; [exact Hn'|apply Hlow'; lia].
Defined.

(** X7.  Swapping the two ends of a range negates the normalised value up
    to rounding: for raw values within [2^32] of both ends and every
    rounding as accurate as binary64, the two results add up to at most
    [2^-17] in absolute value.  (They need not be exact opposites, so a
    deadzone equal to one of them can zero one and keep the other.) *)
Theorem normalize_swap_negates_up_to_rounding (rnd : Q -> Q) (lo hi v : Z) :
  binary64_like rnd -> lo <> hi ->
  Z.abs (v - lo) <= 4294967296 -> Z.abs (v - hi) <= 4294967296 ->
  exists n n',
    normalized_with rnd lo hi v = Some n /\
    normalized_with rnd hi lo v = Some n' /\
    (Qabs (n' + n) <= 8 # 1048576)%Q.
Proof.
  intros Hrnd Hne Hlo Hhi.
  destruct (normalized_defined lo hi v Hne) as [n0 Hn0].
  destruct (normalized_defined hi lo v (not_eq_sym Hne)) as [n0' Hn0'].
  assert (Hneg : (n0' == - n0)%Q).
  { destruct (normalized_value _ _ _ _ Hn0) as [_ ->].
    destruct (normalized_value _ _ _ _ Hn0') as [_ ->].
    field. split; apply inject_Z_sub_nonzero; congruence. }
  destruct (binary64_like_close rnd lo hi v n0 Hrnd Hn0 Hlo)
    as (n & Hn & Hclose).
  destruct (binary64_like_close rnd hi lo v n0' Hrnd Hn0' Hhi)
    as (n' & Hn' & Hclose').
  exists n, n'. split; [exact Hn|]. split; [exact Hn'|].
  apply Qabs_Qle_condition. split; lra.
Qed.

Lemma normalize_swap_negates_up_to_rounding_witness :
  binary64_like round_to_fine_grid /\
  exists n n',
    normalized_with round_to_fine_grid (-32768) 32767 19660 = Some n /\
    normalized_with round_to_fine_grid 32767 (-32768) 19660 = Some n' /\
    (Qabs (n' + n) <= 8 # 1048576)%Q.
Proof.
  split; [exact round_to_fine_grid_like|].
  apply (normalize_swap_negates_up_to_rounding round_to_fine_grid
           (-32768) 32767 19660 round_to_fine_grid_like); lia.
Defined.

(** In binary64 the two orientations of the stick range of the X-Box
    pads do not give exact opposites at the raw value 19660. *)
Example binary64_swap_not_opposite :
  Binary64Examples.opposite
    (Binary64.normalized_b64 (-32768) 32767 19660)
    (Binary64.normalized_b64 32767 (-32768) 19660) = false.
Proof. vm_compute. reflexivity. Qed.

(** X8.  On a range at most [2^16] wide and raw values within [2^32] of
    [rawMin], the normalised value is strictly monotone in the raw value:
    decreasing when [rawMin < rawMax], increasing when [rawMin > rawMax];
    distinct raw values never collapse before the deadzone.  This holds
    in exact arithmetic and under every rounding as accurate as
    binary64. *)
Theorem normalized_monotone (lo hi v1 v2 : Z) (n1 n2 : Q) :
  normalized lo hi v1 = Some n1 -> normalized lo hi v2 = Some n2 ->
  v1 < v2 -> Z.abs (hi - lo) <= 65536 ->
  Z.abs (v1 - lo) <= 4294967296 -> Z.abs (v2 - lo) <= 4294967296 ->
  (lo < hi -> (n2 < n1)%Q) /\ (hi < lo -> (n1 < n2)%Q) /\
  forall rnd, binary64_like rnd ->
    exists m1 m2,
      normalized_with rnd lo hi v1 = Some m1 /\
      normalized_with rnd lo hi v2 = Some m2 /\
      (lo < hi -> (m2 < m1)%Q) /\ (hi < lo -> (m1 < m2)%Q).
Proof.
  intros H1 H2 Hlt Hwide Hnear1 Hnear2.
  destruct (normalized_gap lo hi v1 v2 n1 n2 H1 H2 Hlt Hwide) as [Hdec Hinc].
  split; [intros Hord; apply Hdec in Hord; lra|].
  split; [intros Hord; apply Hinc in Hord; lra|].
  intros rnd Hrnd.
  destruct (binary64_like_close rnd lo hi v1 n1 Hrnd H1 Hnear1)
    as (m1 & Hm1 & Hc1).
  destruct (binary64_like_close rnd lo hi v2 n2 Hrnd H2 Hnear2)
    as (m2 & Hm2 & Hc2).
  exists m1, m2. split; [exact Hm1|]. split; [exact Hm2|].
  split; intros Hord; [apply Hdec in Hord|apply Hinc in Hord]; lra.
Qed.

Lemma normalized_monotone_witness :
  normalized 0 255 10 = Some (235 # 255) /\
  normalized 0 255 20 = Some (215 # 255) /\ (215 # 255 < 235 # 255)%Q /\
  exists m1 m2,
    normalized_with round_to_fine_grid 0 255 10 = Some m1 /\
    normalized_with round_to_fine_grid 0 255 20 = Some m2 /\ (m2 < m1)%Q.
Proof.
  assert (H1 : normalized 0 255 10 = Some (235 # 255))
    by (vm_compute; reflexivity).
  assert (H2 : normalized 0 255 20 = Some (215 # 255))
    by (vm_compute; reflexivity).
  destruct (normalized_monotone 0 255 10 20 _ _ H1 H2)
    as (Hdec & _ & Hrounded); [lia|lia|lia|lia|].
  split; [exact H1|]. split; [exact H2|]. split; [apply Hdec; lia|].
  destruct (Hrounded round_to_fine_grid round_to_fine_grid_like)
    as (m1 & m2 & Hm1 & Hm2 & Hdec' & _).
  exists m1, m2. split; [exact Hm1|]. split; [exact Hm2|apply Hdec'; lia].
Defined.

(** X9.  The extreme deadzones: a negative deadzone never zeroes
    anything, and a deadzone of 1 or more zeroes every raw value that lies
    in the range, which switches the axis off. *)
Theorem normalize_deadzone_extremes (dz : Q) (lo hi v : Z) (n : Q) :
  normalized lo hi v = Some n ->
  ((dz < 0)%Q -> normalize_key_value dz lo hi v = Some n) /\
  ((1 <= dz)%Q -> (lo <= v <= hi \/ hi <= v <= lo) ->
     normalize_key_value dz lo hi v = Some 0%Q).
Proof.
  intros Hn. rewrite (normalize_key_value_cases dz lo hi v n Hn). split.
  - intros Hneg. destruct (Qlt_le_dec dz (Qabs n)) as [|Hle]; [reflexivity|].
    pose proof (Qabs_nonneg n). exfalso. lra.
  - intros Hbig Hrange.
    destruct (Qlt_le_dec dz (Qabs n)) as [Hlt|]; [|reflexivity].
    destruct (normalized_value _ _ _ _ Hn) as [Hne _].
    destruct (normalized_with_range (fun x => x) (fun x y H => H)
                (fun z _ => Qeq_refl _) lo hi v Hne Hrange)
      as (n0 & Hn0 & Hr & _).
    rewrite normalized_with_identity, Hn in Hn0. injection Hn0 as <-.
    assert (Habs : (Qabs n <= 1)%Q) by (apply Qabs_Qle_condition; exact Hr).
    exfalso. lra.
Qed.

Lemma normalize_deadzone_extremes_witness :
  normalized 0 255 100 = Some (55 # 255) /\
  normalize_key_value 1 0 255 100 = Some 0%Q.
Proof.
  assert (Hn : normalized 0 255 100 = Some (55 # 255))
    by (vm_compute; reflexivity).
  split; [exact Hn|].
  apply (normalize_deadzone_extremes 1 0 255 100 _ Hn).
  - vm_compute. discriminate.
  - lia.
Defined.

(** ** The state buffer *)

Lemma list_setitem_Forall {A} (P : A -> Prop) (l l' : list A) (i : Z) (x : A) :
  Forall P l -> P x -> list_setitem l i x = Some l' -> Forall P l'.
Proof.
  intros Hl Hx. unfold list_setitem.
  repeat case_decide; intros [= <-]; by apply Forall_insert.
Qed.

Lemma normalize_key_value_in_unit (dz : Q) (lo hi v : Z) (out : Q) :
  normalize_key_value dz lo hi v = Some out ->
  (lo <= v <= hi \/ hi <= v <= lo) ->
  (-1 <= out <= 1)%Q.
Proof.
  intros Hout Hrange. unfold normalize_key_value in Hout.
  destruct (normalized lo hi v) as [n|] eqn:Hn; [|discriminate].
  destruct (normalized_value _ _ _ _ Hn) as [Hne _].
  destruct (normalized_with_range (fun x => x) (fun x y H => H)
              (fun z _ => Qeq_refl _) lo hi v Hne Hrange)
    as (n0 & Hn0 & Hr & _).
  rewrite normalized_with_identity, Hn in Hn0. injection Hn0 as <-.
  destruct (Qlt_le_dec dz (Qabs n)); injection Hout as <-; [exact Hr|].
  split; lra.
Qed.

Lemma unit_interval_publish self :
  unit_interval_kept self -> unit_interval_kept (after_publish self).
Proof.
  intros [Hs Hp]. split; [exact Hs|]. read_fields.
  apply Forall_app. split; [exact Hp|]. by constructor.
Qed.

Lemma unit_interval_handle event self :
  in_declared_range event = true ->
  unit_interval_kept self ->
  unit_interval_kept (node_of (handle_event event self)).
Proof.
  unfold in_declared_range, handle_event.
  intros Hrange Hkept. pose proof Hkept as [Hunit Hpub]. run_monad.
  destruct (JOYSTICK_CODE_VALUE_MAP !! device_name event) as [[cm vm]|];
    [|exact Hkept].
  destruct (cm !! code event) as [k|]; [|exact Hkept].
  destruct (String.eqb _ "Key").
  { destruct (list_setitem _ _ _) as [b|]; [|exact Hkept].
    rewrite publish_joy_eq. cbn [node_of].
    apply (unit_interval_publish (set_joy (set_buttons b (joy self)) self)).
    exact Hkept. }
  destruct (String.eqb _ "Absolute"); [|exact Hkept].
  destruct (vm !! k) as [[lo hi]|]; [|exact Hkept]. cbn [fst snd].
  destruct (normalize_key_value _ _ _ _) as [out|] eqn:Hout; [|exact Hkept].
  destruct (list_setitem _ _ _) as [a|] eqn:Hset; [|exact Hkept].
  assert (Ha : Forall (fun a => (-1 <= a <= 1)%Q) a).
  { eapply list_setitem_Forall; [exact Hunit| |exact Hset].
    eapply normalize_key_value_in_unit; [exact Hout|]. lia. }
  assert (Hstored : unit_interval_kept (set_joy (set_axes a (joy self)) self))
    by (by split).
  read_fields.
  destruct (last_event self); [destruct (negb _)|];
    [| destruct (Qlt_le_dec _ _) |]; rewrite ?publish_joy_eq; cbn [node_of].
  - by apply (unit_interval_publish _ Hstored).
  - by apply (unit_interval_publish (node_of (time_time _)) Hstored).
  - exact Hstored.
  - by apply (unit_interval_publish _ Hstored).
Qed.

(** X10.  As long as the raw state of every [Absolute] event lies in the
    range its profile declares, every axis of the state buffer and of every
    published message stays in [[-1, 1]], over any run of the timer and
    whether or not it ends in an exception. *)
Theorem axes_stay_in_unit_interval (ticks : list (list GamePad))
    (self : JoystickRos2) :
  Forall (fun gamepads =>
            match gamepads with
            | [] => True
            | gamepad :: _ =>
                Forall (fun e => in_declared_range e = true) (pending gamepad)
            end) ticks ->
  unit_interval_kept self ->
  unit_interval_kept (node_of (spin ticks self)).
Proof.
  intros Hticks Hkept.
  apply (invariant_spin unit_interval_kept
           (fun e => in_declared_range e = true)).
  - intros event s. apply unit_interval_handle.
  - intros s Hs. exact Hs.
  - apply unit_interval_publish.
  - exact Hticks.
  - exact Hkept.
Qed.

Lemma default_node_unit_interval (clock : nat -> Q) :
  unit_interval_kept (default_node clock).
Proof.
  split; [|constructor]. unfold axes_in_unit_interval. cbn.
  repeat (constructor; [split; discriminate|]). constructor.
Qed.

Lemma axes_stay_in_unit_interval_witness :
  unit_interval_kept (default_node fast_clock) /\
  unit_interval_kept (node_of (spin [[busy_pad]] (default_node fast_clock))).
Proof.
  split; [apply default_node_unit_interval|].
  apply axes_stay_in_unit_interval; [|apply default_node_unit_interval].
  repeat constructor.
Defined.

(** X11.  The range of the right stick's vertical axis in the X-Box One
    profile is [(-32768, -32767)], one unit wide: an [ABS_RY] event with raw
    state [v] stores [-2 * v - 65535] in axis 4, which for every
    [v >= -32766] is [-3] or less, far outside [[-1, 1]]. *)
Theorem xone_right_stick_out_of_range (self : JoystickRos2) (v : Z) :
  wf_node self -> (deadzone self < 3)%Q -> -32766 <= v ->
  exists self' a,
    handle_event (xone_right_stick_y v) self = Ret tt self' /\
    axes (joy self') !! 4%nat = Some a /\
    (a == inject_Z (- 2 * v - 65535))%Q /\ (a <= -3)%Q.
Proof.
  intros Hwf Hdz Hv.
  assert (Hrec : recognized (xone_right_stick_y v))
    by (apply recognized_intro; vm_compute; reflexivity).
  assert (Hax : axis_event (xone_right_stick_y v)) by (split; reflexivity).
  destruct (axis_event_outcome self _ Hwf Hrec Hax)
    as (self' & cm & vm & k & lo & hi & n & Hreg & Hcode & _ & Hvm & Hn
        & Hrun & _ & _ & _ & Haxes & _).
  assert (Hreg' : JOYSTICK_CODE_VALUE_MAP !! "Microsoft X-Box One pad"
                    = Some (XONE_CODE_MAP, XONE_VALUE_MAP))
    by (vm_compute; reflexivity).
  cbn [device_name code state xone_right_stick_y] in *.
  rewrite Hreg' in Hreg. injection Hreg as <- <-.
  assert (Hcode' : XONE_CODE_MAP !! "ABS_RY" = Some 4)
    by (vm_compute; reflexivity).
  rewrite Hcode' in Hcode. injection Hcode as <-.
  assert (Hvm' : XONE_VALUE_MAP !! 4 = Some (-32768, -32767))
    by (vm_compute; reflexivity).
  rewrite Hvm' in Hvm. injection Hvm as <- <-.
  destruct (normalized_value _ _ _ _ Hn) as [_ Hval].
  assert (Hform : (n == inject_Z (- 2 * v - 65535))%Q).
  { rewrite Hval, inject_Z_sub, inject_Z_mult.
    change (inject_Z (-32767)) with (-32767 # 1)%Q.
    change (inject_Z (-32768)) with (-32768 # 1)%Q.
    change (inject_Z 65535) with (65535 # 1)%Q.
    change (inject_Z (-2)) with (-2 # 1)%Q. field. }
  assert (Hsmall : (n <= -3)%Q).
  { rewrite Hform. change (-3)%Q with (inject_Z (-3)).
    rewrite <- Zle_Qle. lia. }
  exists self', n. split; [exact Hrun|].
  split; [|by split].
  rewrite Haxes.
  destruct (Qlt_le_dec (deadzone self) (Qabs n)) as [_|Hle].
  - apply list_lookup_insert_eq. destruct Hwf as [Hlen _].
    rewrite Hlen. cbn. lia.
  - assert (Habs : (Qabs n == - n)%Q) by (apply Qabs_neg; lra).
    exfalso. lra.
Qed.

Lemma xone_right_stick_out_of_range_witness :
  wf_node (default_node fast_clock) /\
  exists self' a,
    handle_event (xone_right_stick_y 0) (default_node fast_clock)
      = Ret tt self' /\
    axes (joy self') !! 4%nat = Some a /\ (a <= -3)%Q.
Proof.
  assert (Hwf : wf_node (default_node fast_clock)) by (split; reflexivity).
  split; [exact Hwf|].
  destruct (xone_right_stick_out_of_range (default_node fast_clock) 0 Hwf)
    as (self' & a & Hrun & Hslot & _ & Hle); [reflexivity|lia|].
  exists self', a. split; [exact Hrun|]. split; [exact Hslot|exact Hle].
Defined.

(** ** Time stamps again *)

Lemma int_inject_Z (z : Z) : int (inject_Z z) = z.
Proof. unfold int, inject_Z. cbn [Qnum Qden]. apply Z.quot_1_r. Qed.

Lemma stamp_ns_bounds (now : Q) (j : Joy) :
  (0 <= now)%Q ->
  stamp_sec (stamped now j) = Qfloor now /\
  (inject_Z (stamp_ns (stamped now j)) <= now * 1000000000
     < inject_Z (stamp_ns (stamped now j)) + 1)%Q.
Proof.
  intros Hnow.
  assert (Hsec : stamp_sec (stamped now j) = int now).
  { read_fields. unfold modf. cbn [snd]. apply int_inject_Z. }
  split; [by rewrite Hsec, int_floor|].
  destruct (stamped_nanosec now j Hnow) as [Hraw _].
  unfold stamp_ns. rewrite Hsec, Hraw.
  destruct (modf_fraction now Hnow) as [Hf0 Hf1].
  assert (Hs : (0 <= (modf now).1 * 1000000000)%Q) by lra.
  destruct (int_bounds _ Hs) as (_ & Hlo & Hhi).
  assert (Hsplit : ((modf now).1 == now - inject_Z (int now))%Q)
    by reflexivity.
  rewrite inject_Z_plus, inject_Z_mult.
  change (inject_Z 1000000000) with 1000000000%Q.
  split; lra.
Qed.

Lemma nanosec_with_bounds (rnd : Q -> Q) (now : Q) :
  rounds_integers_exactly 1000000000 rnd -> (0 <= now)%Q ->
  0 <= nanosec_with rnd now <= 1000000000 /\
  (now * 1000000000 - 1
     < inject_Z (Qfloor now * 1000000000 + nanosec_with rnd now)
     < now * 1000000000 + 1)%Q.
Proof.
  intros [Hmono Hint] Hnow.
  destruct (modf_fraction now Hnow) as [Hf0 Hf1].
  assert (Hsplit : ((modf now).1 == now - inject_Z (Qfloor now))%Q).
  { unfold modf. cbn [fst]. by rewrite (int_floor now Hnow). }
  unfold nanosec_with.
  set (x := ((modf now).1 * 1000000000)%Q) in *.
  assert (Hx : (0 <= x < 1000000000)%Q) by (unfold x; split; lra).
  set (k := Qfloor x).
  assert (Hk0 : 0 <= k).
  { change 0 with (Qfloor 0). apply Qfloor_resp_le. lra. }
  assert (Hkx : (inject_Z k <= x < inject_Z (k + 1))%Q).
  { split; [apply Qfloor_le|apply Qlt_floor]. }
  assert (Hk1 : k + 1 <= 1000000000).
  { assert (Hlt : (inject_Z k < inject_Z 1000000000)%Q).
    { change (inject_Z 1000000000) with 1000000000%Q. lra. }
    rewrite <- Zlt_Qlt in Hlt. lia. }
  assert (Hlo : (inject_Z k <= rnd x)%Q).
  { rewrite <- (Hint k) by lia. apply Hmono. lra. }
  assert (Hhi : (rnd x <= inject_Z (k + 1))%Q).
  { rewrite <- (Hint (k + 1)) by lia. apply Hmono. lra. }
  assert (Hr0 : (0 <= rnd x)%Q).
  { assert (H0 : (0 <= inject_Z k)%Q)
      by (change 0%Q with (inject_Z 0); by rewrite <- Zle_Qle).
    lra. }
  rewrite (int_floor _ Hr0).
  set (ns := Qfloor (rnd x)).
  assert (Hns : k <= ns <= k + 1).
  { split.
    - rewrite <- (Qfloor_Z k). by apply Qfloor_resp_le.
    - rewrite <- (Qfloor_Z (k + 1)). by apply Qfloor_resp_le. }
  rewrite land_32_bits by lia. split; [lia|].
  assert (Hup : ns = k + 1 -> (inject_Z k < x)%Q).
  { intros Hns1. apply Qnot_le_lt. intros Hle.
    assert (Hrk : (rnd x <= inject_Z k)%Q).
    { rewrite <- (Hint k) by lia. by apply Hmono. }
    assert (Hfl : (inject_Z ns <= rnd x)%Q) by apply Qfloor_le.
    assert (Hnk : (inject_Z ns <= inject_Z k)%Q) by lra.
    rewrite <- Zle_Qle in Hnk. lia. }
  rewrite inject_Z_plus, inject_Z_mult.
  change (inject_Z 1000000000) with 1000000000%Q.
  rewrite inject_Z_plus in Hkx. change (inject_Z 1) with 1%Q in Hkx.
  assert (Hcases : ns = k \/ ns = k + 1) by lia.
  destruct Hcases as [-> | Hns1].
  - unfold x in Hkx. split; lra.
  - specialize (Hup Hns1). rewrite Hns1, inject_Z_plus.
    change (inject_Z 1) with 1%Q. unfold x in Hkx, Hup. split; lra.
Qed.

Lemma round_to_grid_exact : rounds_integers_exactly 1000000000 round_to_grid.
Proof.
  split; [exact round_to_grid_monotone|].
  intros z _. apply round_to_grid_int.
Qed.

(** X12.  The two fields of the time stamp put the clock reading back
    together to within one nanosecond: [sec] is its integer part, and
    [sec * 10^9 + nanosec] is less than one away from the reading in
    nanoseconds.  This holds in exact arithmetic and for every monotone
    rounding of the product that leaves the integers up to [10^9] alone;
    with such a rounding the nanosecond field can be the next integer
    above, up to [10^9] itself.  The publish time the tracker keeps is
    not that reading but the next one, taken after the message was handed
    to the publisher. *)
Theorem stamp_reconstructs_time (self : JoystickRos2) :
  (0 <= wall self (reads self))%Q ->
  exists self',
    publish_joy self = Ret tt self' /\
    stamp_sec (joy self') = Qfloor (wall self (reads self)) /\
    (wall self (reads self) * 1000000000 - 1
       < inject_Z (stamp_ns (joy self'))
       < wall self (reads self) * 1000000000 + 1)%Q /\
    last_publish_time self' = wall self (S (reads self)) /\
    forall rnd, rounds_integers_exactly 1000000000 rnd ->
      0 <= nanosec_with rnd (wall self (reads self)) <= 1000000000 /\
      (wall self (reads self) * 1000000000 - 1
         < inject_Z (stamp_sec (joy self') * 1000000000
                     + nanosec_with rnd (wall self (reads self)))
         < wall self (reads self) * 1000000000 + 1)%Q.
Proof.
  intros Hnow. exists (after_publish self).
  split; [apply publish_joy_eq|].
  destruct (stamp_ns_bounds _ (joy self) Hnow) as [Hsec Hns].
  split; [exact Hsec|]. split; [read_fields; split; lra|].
  split; [reflexivity|].
  intros rnd Hrnd.
  change (joy (after_publish self))
    with (stamped (wall self (reads self)) (joy self)).
  rewrite Hsec. by apply nanosec_with_bounds.
Qed.

Lemma stamp_reconstructs_time_witness :
  exists self',
    publish_joy (default_node fast_clock) = Ret tt self' /\
    stamp_sec (joy self') = 1700000000 /\
    last_publish_time self' = fast_clock 1 /\
    0 <= nanosec_with round_to_grid (fast_clock 0) <= 1000000000.
Proof.
  destruct (stamp_reconstructs_time (default_node fast_clock))
    as (self' & Hrun & Hsec & _ & Hlast & Hrounded).
  - vm_compute. discriminate.
  - exists self'. split; [exact Hrun|].
    split; [rewrite Hsec; reflexivity|]. split; [exact Hlast|].
    exact (proj1 (Hrounded round_to_grid round_to_grid_exact)).
Defined.

(** In binary64 the nanosecond field can lie above the reading: the
    number nearest to three tenths is [5404319552844595 * 2^-54], just
    below three tenths, and its product with [10^9] rounds to
    [300000000]. *)
Example binary64_stamp_above_reading :
  Binary64Examples.mantissa Binary64Examples.three_tenths
    = 5404319552844595 /\
  Binary64Examples.exponent Binary64Examples.three_tenths = -1 /\
  5404319552844595 * 1000000000 < 300000000 * 2 ^ 54 /\
  PrimFloat.eqb Binary64Examples.scaled_three_tenths
    (Binary64.of_int 300000000) = true.
Proof. vm_compute. repeat split; reflexivity. Qed.

(** ** Counting publishes *)

Lemma count_events_cons f event events :
  count_events f (event :: events)
    = ((if f event then 1 else 0) + count_events f events)%nat.
Proof. unfold count_events. cbn [List.filter]. by destruct (f event). Qed.

Lemma recognizedb_true event :
  recognized event -> recognizedb event = true.
Proof.
  intros (cm & vm & Hreg & Hsome). unfold recognizedb. rewrite Hreg.
  by apply bool_decide_eq_true.
Qed.

Lemma handle_event_count self event :
  wf_node self -> well_kinded event = true ->
  exists self' d,
    handle_event event self = Ret tt self' /\ wf_node self' /\
    length (published self') = (length (published self) + d)%nat /\
    ((if is_key_input event then 1 else 0) <= d
       <= (if is_tracked_input event then 1 else 0))%nat.
Proof.
  intros Hwf Hwk. unfold is_key_input, is_tracked_input.
  pose proof Hwk as Hwk'. unfold well_kinded in Hwk'.
  destruct (JOYSTICK_CODE_VALUE_MAP !! device_name event)
    as [[code_map value_map]|] eqn:Hreg; [|discriminate].
  destruct (code_map !! code event) as [key_code|] eqn:Hcode.
  2:{ exists self, 0%nat.
      rewrite (handle_unrecognized _ _ _ _ Hreg Hcode).
      unfold recognizedb. rewrite Hreg, Hcode.
      rewrite bool_decide_eq_false_2 by (intros [? ?]; discriminate).
      cbn. destruct Hwf. repeat split; auto; lia. }
  assert (Hrec : recognized event) by (exists code_map, value_map; eauto).
  rewrite (recognizedb_true _ Hrec). cbn [andb].
  destruct (String.eqb (ev_type event) "Key") eqn:Hk.
  { apply String.eqb_eq in Hk.
    destruct (button_event_outcome self event Hwf Hrec Hk)
      as (self' & _ & _ & _ & _ & _ & _ & Hrun & Hwf' & _ & _ & _ & _ & Hp).
    exists self', 1%nat. split; [exact Hrun|]. split; [exact Hwf'|].
    rewrite Hp, length_app. cbn. split; lia. }
  destruct (String.eqb (ev_type event) "Absolute") eqn:Ha.
  { pose proof Ha as Ha'. apply String.eqb_eq in Ha'.
    destruct (axis_event_outcome self event Hwf Hrec (conj Ha' Hwk'))
      as (self' & _ & _ & _ & _ & _ & _ & _ & _ & _ & _ & _ & Hrun & Hwf'
          & _ & _ & _ & _ & Hpub).
    destruct Hpub as [[_ Hp] | (_ & Hp & _)].
    - exists self', 1%nat. split; [exact Hrun|]. split; [exact Hwf'|].
      rewrite Hp, length_app. cbn. split; lia.
    - exists self', 0%nat. split; [exact Hrun|]. split; [exact Hwf'|].
      rewrite Hp. cbn. split; lia. }
  exists self, 0%nat. rewrite (handle_other_kind _ _ _ _ Hreg Hk Ha).
  cbn. destruct Hwf. repeat split; auto; lia.
Qed.

(** X13.  One call of [run_one] publishes at least once per recognised
    button event and at most once per recognised button or axis event,
    plus at most one autorepeat message. *)
Theorem publish_count_bounds (gamepad : GamePad) (others : list GamePad)
    (self : JoystickRos2) :
  wf_node self ->
  Forall (fun e => well_kinded e = true) (pending gamepad) ->
  exists self',
    run_one (gamepad :: others) self = Ret tt self' /\
    (length (published self) + count_events is_key_input (pending gamepad)
       <= length (published self')
       <= length (published self)
          + count_events is_tracked_input (pending gamepad) + 1)%nat.
Proof.
  intros Hwf Hall.
  assert (Hdrain : exists drained,
            for_events (pending gamepad) (read_fails gamepad) self
              = (if read_fails gamepad then Raise OSError drained
                 else Ret tt drained) /\
            (length (published self)
               + count_events is_key_input (pending gamepad)
             <= length (published drained)
             <= length (published self)
                + count_events is_tracked_input (pending gamepad))%nat).
  { revert self Hwf. generalize (read_fails gamepad) as fails.
    induction Hall as [|event rest Hev _ IH]; intros fails self Hwf.
    - exists self. split; [by destruct fails|]. cbn. lia.
    - destruct (handle_event_count self event Hwf Hev)
        as (self1 & d & Hrun & Hwf1 & Hlen & Hd).
      destruct (IH fails self1 Hwf1) as (drained & Hrest & Hbounds).
      exists drained. split.
      + cbn [for_events]. run_monad. rewrite Hrun. exact Hrest.
      + rewrite !count_events_cons. lia. }
  destruct Hdrain as (drained & Hdrain & Hbounds).
  rewrite (run_one_after_drain gamepad others self drained Hdrain).
  destruct (autorepeat_condition_dec drained) as [Hyes|Hno].
  - exists (after_publish (node_of (time_time drained))).
    split; [by apply autorepeat_fires|].
    read_fields. rewrite length_app. cbn. lia.
  - destruct (autorepeat_silent drained Hno) as (self' & Hrun & _ & Hp & _).
    exists self'. split; [exact Hrun|]. rewrite Hp. lia.
Qed.

Lemma publish_count_bounds_witness :
  exists self',
    run_one [busy_pad] (default_node fast_clock) = Ret tt self' /\
    (1 <= length (published self') <= 3)%nat.
Proof.
  assert (Hwf : wf_node (default_node fast_clock)) by (split; reflexivity).
  destruct (publish_count_bounds busy_pad [] _ Hwf)
    as (self' & Hrun & Hbounds).
  - repeat constructor.
  - exists self'. split; [exact Hrun|]. exact Hbounds.
Defined.

(** X14.  A coalesced axis update is stored but not sent, and nothing
    sends it later: with autorepeat disabled and no further event, the
    publisher never receives the value, however many ticks follow. *)
Theorem coalesced_update_not_flushed (self : JoystickRos2)
    (event : InputEvent) (ticks : list (list GamePad)) :
  wf_node self -> recognized event -> axis_event event ->
  ~ axis_publish_condition self event ->
  (autorepeat_rate self <= 0)%Q -> Forall idle ticks ->
  exists self' code_map value_map key_code lo hi n,
    JOYSTICK_CODE_VALUE_MAP !! device_name event
      = Some (code_map, value_map) /\
    code_map !! code event = Some key_code /\
    value_map !! key_code = Some (lo, hi) /\
    normalized lo hi (state event) = Some n /\
    (handle_event event;; spin ticks) self = Ret tt self' /\
    axes (joy self') !! Z.to_nat key_code
      = Some (if Qlt_le_dec (deadzone self) (Qabs n) then n else 0%Q) /\
    published self' = published self.
Proof.
  intros Hwf Hrec Hax Hno Hrate Hidle.
  destruct (axis_event_outcome self event Hwf Hrec Hax)
    as (self1 & cm & vm & k & lo & hi & n & Hreg & Hcode & Hk & Hvm & Hn
        & Hrun & _ & Hsame & _ & Haxes & _ & Hpub).
  destruct Hpub as [[Hyes _] | (_ & Hp & _)]; [by destruct Hno|].
  exists self1, cm, vm, k, lo, hi, n.
  do 4 (split; [assumption|]).
  destruct Hsame as (_ & Hr & _).
  split; [|split; [|exact Hp]].
  - run_monad. rewrite Hrun. apply spin_idle; [exact Hidle|by rewrite Hr].
  - rewrite Haxes. apply list_lookup_insert_eq.
    destruct Hwf as [Hlen _]. lia.
Qed.

Lemma coalesced_update_not_flushed_witness :
  exists self',
    (handle_event (stick_x 200);; spin [[quiet_pad]; []; [quiet_pad]])
      after_first_stick = Ret tt self' /\
    published self' = published after_first_stick.
Proof.
  assert (Hwf : wf_node after_first_stick) by (split; reflexivity).
  assert (Hrec : recognized (stick_x 200))
    by (apply recognized_intro; vm_compute; reflexivity).
  assert (Hax : axis_event (stick_x 200)) by (split; reflexivity).
  assert (Hno : ~ axis_publish_condition after_first_stick (stick_x 200)).
  { intros [H | [(last & H1 & H2) | H]].
    - vm_compute in H. discriminate.
    - vm_compute in H1. injection H1 as <-. by apply H2.
    - vm_compute in H. discriminate. }
  assert (Hrate : (autorepeat_rate after_first_stick <= 0)%Q)
    by (vm_compute; discriminate).
  assert (Hidle : Forall idle [[quiet_pad]; []; [quiet_pad]])
    by (repeat constructor).
  destruct (coalesced_update_not_flushed _ _ _ Hwf Hrec Hax Hno Hrate Hidle)
    as (self' & _ & _ & _ & _ & _ & _ & _ & _ & _ & _ & Hrun & _ & Hpub).
  exists self'. split; [exact Hrun|exact Hpub].
Defined.

(** X15.  A recognised event writes one slot and no other: an axis event
    leaves all buttons and all other axes as they were, a button event
    all axes and all other buttons. *)
Theorem event_touches_one_slot (self : JoystickRos2) (event : InputEvent) :
  wf_node self -> recognized event ->
  (axis_event event ->
     exists self' code_map value_map key_code,
       JOYSTICK_CODE_VALUE_MAP !! device_name event
         = Some (code_map, value_map) /\
       code_map !! code event = Some key_code /\
       handle_event event self = Ret tt self' /\
       buttons (joy self') = buttons (joy self) /\
       forall i, i <> Z.to_nat key_code ->
         axes (joy self') !! i = axes (joy self) !! i) /\
  (button_event event ->
     exists self' code_map value_map key_code,
       JOYSTICK_CODE_VALUE_MAP !! device_name event
         = Some (code_map, value_map) /\
       code_map !! code event = Some key_code /\
       handle_event event self = Ret tt self' /\
       axes (joy self') = axes (joy self) /\
       forall i, i <> Z.to_nat key_code ->
         buttons (joy self') !! i = buttons (joy self) !! i).
Proof.
  intros Hwf Hrec. split.
  - intros Hax.
    destruct (axis_event_outcome self event Hwf Hrec Hax)
      as (self' & cm & vm & k & lo & hi & n & Hreg & Hcode & _ & _ & _
          & Hrun & _ & _ & _ & Haxes & Hbuttons & _).
    exists self', cm, vm, k. do 4 (split; [assumption|]).
    intros i Hi. rewrite Haxes. by apply list_lookup_insert_ne.
  - intros Hkey.
    destruct (button_event_outcome self event Hwf Hrec Hkey)
      as (self' & cm & vm & k & Hreg & Hcode & _ & Hrun & _ & _ & _
          & Hbuttons & Haxes & _).
    exists self', cm, vm, k. do 4 (split; [assumption|]).
    intros i Hi. rewrite Hbuttons. by apply list_lookup_insert_ne.
Qed.

Lemma event_touches_one_slot_witness :
  exists self',
    handle_event (stick_x 5) (default_node fast_clock) = Ret tt self' /\
    buttons (joy self') = buttons (joy (default_node fast_clock)).
Proof.
  assert (Hwf : wf_node (default_node fast_clock)) by (split; reflexivity).
  assert (Hrec : recognized (stick_x 5))
    by (apply recognized_intro; vm_compute; reflexivity).
  destruct (event_touches_one_slot _ _ Hwf Hrec) as [Haxis _].
  destruct Haxis as (self' & _ & _ & _ & _ & _ & Hrun & Hbuttons & _);
    [split; reflexivity|].
  exists self'. split; [exact Hrun|exact Hbuttons].
Defined.


(** ** Order of the time stamps *)

Lemma stamp_ns_monotone (t1 t2 : Q) (j1 j2 : Joy) :
  (0 <= t1)%Q -> (t1 <= t2)%Q ->
  stamp_ns (stamped t1 j1) <= stamp_ns (stamped t2 j2).
Proof.
  intros H0 H12.
  destruct (stamp_ns_bounds t1 j1 H0) as [_ [Hlo1 _]].
  assert (H0' : (0 <= t2)%Q) by lra.
  destruct (stamp_ns_bounds t2 j2 H0') as [_ [_ Hhi2]].
  apply Z.lt_succ_r. rewrite Zlt_Qlt. unfold Z.succ.
  rewrite inject_Z_plus. change (inject_Z 1) with 1%Q. lra.
Qed.

Section Ordered.

Variable clock : nat -> Q.
Hypothesis clock_nonneg : forall n, (0 <= clock n)%Q.
Hypothesis clock_monotone :
  forall n m, (n <= m)%nat -> (clock n <= clock m)%Q.

Lemma stamps_in_order_setters self self' :
  wall self' = wall self -> published self' = published self ->
  (reads self <= reads self')%nat ->
  stamps_in_order clock self -> stamps_in_order clock self'.
Proof.
  intros Hw Hp Hr (Hwall & Hsorted & Hall). unfold stamps_in_order.
  rewrite Hw, Hp. split; [exact Hwall|]. split; [exact Hsorted|].
  eapply Forall_impl; [exact Hall|].
  intros msg (n & j & Hn & ->). exists n, j. split; [lia|reflexivity].
Qed.

Lemma stamps_in_order_publish self :
  stamps_in_order clock self -> stamps_in_order clock (after_publish self).
Proof.
  intros (Hwall & Hsorted & Hall). unfold stamps_in_order. read_fields.
  rewrite Hwall. split; [reflexivity|]. split.
  - rewrite map_app. apply StronglySorted_app_2.
    + intros x1 x2 H1 H2. cbn in H2. apply list_elem_of_singleton in H2.
      subst x2. apply list_elem_of_fmap in H1 as (msg & -> & Hmsg).
      rewrite Forall_forall in Hall.
      destruct (Hall msg Hmsg) as (n & j & Hn & ->).
      apply stamp_ns_monotone; [apply clock_nonneg|].
      apply clock_monotone. lia.
    + exact Hsorted.
    + repeat constructor.
  - apply Forall_app. split.
    + eapply Forall_impl; [exact Hall|].
      intros msg (n & j & Hn & ->). exists n, j. split; [lia|reflexivity].
    + constructor; [|constructor]. exists (reads self), (joy self).
      split; [lia|reflexivity].
Qed.

Lemma stamps_in_order_handle event self :
  stamps_in_order clock self ->
  stamps_in_order clock (node_of (handle_event event self)).
Proof.
  intros Hs.
  assert (Hset : forall (s : JoystickRos2) j,
            stamps_in_order clock s -> stamps_in_order clock (set_joy j s)).
  { intros s j. by apply stamps_in_order_setters. }
  assert (Hlast : forall (s : JoystickRos2) e,
            stamps_in_order clock s ->
            stamps_in_order clock (set_last_event e s)).
  { intros s e. by apply stamps_in_order_setters. }
  assert (Htime : forall s : JoystickRos2,
            stamps_in_order clock s ->
            stamps_in_order clock (node_of (time_time s))).
  { intros s. apply stamps_in_order_setters; read_fields; auto. }
  unfold handle_event. run_monad.
  destruct (JOYSTICK_CODE_VALUE_MAP !! device_name event) as [[cm vm]|];
    [|exact Hs].
  destruct (cm !! code event) as [k|]; [|exact Hs].
  destruct (String.eqb _ "Key").
  { destruct (list_setitem _ _ _) as [b|]; [|exact Hs].
    rewrite publish_joy_eq. cbn [node_of].
    by apply Hlast, stamps_in_order_publish, Hset. }
  destruct (String.eqb _ "Absolute"); [|exact Hs].
  destruct (vm !! k) as [value_range|]; [|exact Hs].
  destruct (normalize_key_value _ _ _ _); [|exact Hs].
  destruct (list_setitem _ _ _) as [a|]; [|exact Hs].
  read_fields.
  destruct (last_event self); [destruct (negb _)|];
    [| destruct (Qlt_le_dec _ _) |]; rewrite ?publish_joy_eq; cbn [node_of].
  - by apply Hlast, stamps_in_order_publish, Hset.
  - by apply Hlast, stamps_in_order_publish, Htime, Hset.
  - by apply Hlast, Htime, Hset.
  - by apply Hlast, stamps_in_order_publish, Hset.
Qed.

Lemma stamps_in_order_spin ticks self :
  stamps_in_order clock self ->
  stamps_in_order clock (node_of (spin ticks self)).
Proof.
  intros Hs.
  apply (invariant_spin (stamps_in_order clock) (fun _ => True)).
  - intros event s _. apply stamps_in_order_handle.
  - intros s. apply stamps_in_order_setters; read_fields; auto.
  - apply stamps_in_order_publish.
  - apply any_ticks.
  - exact Hs.
Qed.

End Ordered.

(** X16.  When the wall clock does not run backwards and is not before
    the epoch, the time stamps of the published messages never decrease
    along the sequence of messages, for any run of the timer from
    start-up. *)
Theorem published_stamps_sorted (dz rate coalesce : Q) (clock : nat -> Q)
    (ticks : list (list GamePad)) :
  (forall n, (0 <= clock n)%Q) ->
  (forall n m, (n <= m)%nat -> (clock n <= clock m)%Q) ->
  StronglySorted Z.le
    (map stamp_ns
       (published (node_of
          (spin ticks (JoystickRos2_init dz rate coalesce clock))))).
Proof.
  intros Hnonneg Hmono.
  apply (stamps_in_order_spin clock Hnonneg Hmono ticks).
  split; [reflexivity|]. split; constructor.
Qed.

Lemma fast_clock_monotone (n m : nat) :
  (n <= m)%nat -> (fast_clock n <= fast_clock m)%Q.
Proof.
  intros Hnm. unfold fast_clock.
  assert (H : (inject_Z (Z.of_nat n) <= inject_Z (Z.of_nat m))%Q).
  { rewrite <- Zle_Qle. lia. }
  lra.
Qed.

Lemma published_stamps_sorted_witness :
  StronglySorted Z.le
    (map stamp_ns
       (published (node_of
          (spin [[busy_pad]; [quiet_pad]] (default_node fast_clock))))).
Proof.
  apply published_stamps_sorted.
  - intros n. pose proof (fast_clock_lower_bound n). lra.
  - apply fast_clock_monotone.
Defined.

(** ** The tracker *)

Lemma handle_event_tracker self event :
  wf_node self -> well_kinded event = true ->
  exists self',
    handle_event event self = Ret tt self' /\ wf_node self' /\
    last_event self'
      = if is_tracked_input event then Some event else last_event self.
Proof.
  intros Hwf Hwk. unfold is_tracked_input.
  pose proof Hwk as Hwk'. unfold well_kinded in Hwk'.
  destruct (JOYSTICK_CODE_VALUE_MAP !! device_name event)
    as [[code_map value_map]|] eqn:Hreg; [|discriminate].
  destruct (code_map !! code event) as [key_code|] eqn:Hcode.
  2:{ exists self. rewrite (handle_unrecognized _ _ _ _ Hreg Hcode).
      unfold recognizedb. rewrite Hreg, Hcode.
      rewrite bool_decide_eq_false_2 by (intros [? ?]; discriminate).
      by cbn. }
  assert (Hrec : recognized event) by (exists code_map, value_map; eauto).
  rewrite (recognizedb_true _ Hrec). cbn [andb].
  destruct (String.eqb (ev_type event) "Key") eqn:Hk.
  { apply String.eqb_eq in Hk.
    destruct (button_event_outcome self event Hwf Hrec Hk)
      as (self' & _ & _ & _ & _ & _ & _ & Hrun & Hwf' & _ & Hlast & _).
    by exists self'. }
  destruct (String.eqb (ev_type event) "Absolute") eqn:Ha.
  { pose proof Ha as Ha'. apply String.eqb_eq in Ha'.
    destruct (axis_event_outcome self event Hwf Hrec (conj Ha' Hwk'))
      as (self' & _ & _ & _ & _ & _ & _ & _ & _ & _ & _ & _ & Hrun & Hwf'
          & _ & Hlast & _).
    by exists self'. }
  exists self. by rewrite (handle_other_kind _ _ _ _ Hreg Hk Ha).
Qed.

(** X17.  After a drain the tracker holds the latest recognised [Key] or
    [Absolute] event of the drain, published or not, and what it held
    before when there was none; events of other kinds and unrecognised
    codes never enter it. *)
Theorem tracker_records_latest (events : list InputEvent) (fails : bool)
    (self : JoystickRos2) :
  wf_node self -> Forall (fun e => well_kinded e = true) events ->
  last_event (node_of (for_events events fails self))
    = tracked_after events (last_event self).
Proof.
  intros Hwf Hall. revert self Hwf.
  induction Hall as [|event rest Hev _ IH]; intros self Hwf.
  - rewrite for_events_nil. by destruct fails.
  - destruct (handle_event_tracker self event Hwf Hev)
      as (self1 & Hrun & Hwf1 & Hlast).
    cbn [for_events]. run_monad. rewrite Hrun.
    rewrite (IH self1 Hwf1), Hlast. reflexivity.
Qed.

Lemma tracker_records_latest_witness :
  last_event (node_of (for_events (pending busy_pad) false
                         (default_node fast_clock)))
    = Some (stick_x 5).
Proof.
  assert (Hwf : wf_node (default_node fast_clock)) by (split; reflexivity).
  rewrite (tracker_records_latest _ false _ Hwf).
  - vm_compute. reflexivity.
  - repeat constructor.
Defined.

(** ** Spacing of autorepeat messages *)

(** X18.  An autorepeat message is stamped from the clock reading after
    the one that passed the test; when the clock does not run backwards
    between the two, the stamped reading is more than
    [1 / autorepeat_rate] later than the previous publish time. *)
Theorem autorepeat_respects_rate (self : JoystickRos2) :
  autorepeat_condition self ->
  (wall self (reads self) <= wall self (S (reads self)))%Q ->
  exists self',
    autorepeat self = Ret tt self' /\
    published self'
      = published self ++ [stamped (wall self (S (reads self))) (joy self)] /\
    (last_publish_time self + 1 / autorepeat_rate self
       < wall self (S (reads self)))%Q /\
    last_publish_time self' = wall self (S (S (reads self))).
Proof.
  intros Hyes Hmono. exists (after_publish (node_of (time_time self))).
  split; [by apply autorepeat_fires|].
  split; [reflexivity|]. split; [|reflexivity].
  destruct Hyes as [_ Hgap]. lra.
Qed.

Lemma autorepeat_respects_rate_witness :
  exists self',
    autorepeat (JoystickRos2_init DEFAULT_DEADZONE 50
                  DEFAULT_COALESCE_INTERVAL fast_clock) = Ret tt self' /\
    last_publish_time self' = fast_clock 2.
Proof.
  destruct (autorepeat_respects_rate
              (JoystickRos2_init DEFAULT_DEADZONE 50
                 DEFAULT_COALESCE_INTERVAL fast_clock))
    as (self' & Hrun & _ & _ & Hlast).
  - split; vm_compute; reflexivity.
  - vm_compute. discriminate.
  - exists self'. split; [exact Hrun|exact Hlast].
Defined.

(** ** Buttons *)

Lemma buttons_binary_publish self :
  buttons_binary self -> buttons_binary (after_publish self).
Proof.
  intros [Hs Hp]. split; [exact Hs|]. read_fields.
  apply Forall_app. split; [exact Hp|]. by constructor.
Qed.

Lemma buttons_binary_handle event self :
  (button_event event -> binary (state event)) ->
  buttons_binary self ->
  buttons_binary (node_of (handle_event event self)).
Proof.
  unfold handle_event, button_event.
  intros Hstate Hkept. pose proof Hkept as [Hbin Hpub]. run_monad.
  destruct (JOYSTICK_CODE_VALUE_MAP !! device_name event) as [[cm vm]|];
    [|exact Hkept].
  destruct (cm !! code event) as [k|]; [|exact Hkept].
  destruct (String.eqb _ "Key") eqn:Hk.
  { apply String.eqb_eq in Hk.
    destruct (list_setitem _ _ _) as [b|] eqn:Hset; [|exact Hkept].
    rewrite publish_joy_eq. cbn [node_of].
    apply (buttons_binary_publish (set_joy (set_buttons b (joy self)) self)).
    split; [|exact Hpub]. read_fields.
    eapply list_setitem_Forall; [exact Hbin|by apply Hstate|exact Hset]. }
  destruct (String.eqb _ "Absolute"); [|exact Hkept].
  destruct (vm !! k) as [value_range|]; [|exact Hkept].
  destruct (normalize_key_value _ _ _ _) as [out|]; [|exact Hkept].
  destruct (list_setitem _ _ _) as [a|]; [|exact Hkept].
  assert (Hstored : buttons_binary (set_joy (set_axes a (joy self)) self))
    by (by split).
  read_fields.
  destruct (last_event self); [destruct (negb _)|];
    [| destruct (Qlt_le_dec _ _) |]; rewrite ?publish_joy_eq; cbn [node_of].
  - by apply (buttons_binary_publish _ Hstored).
  - by apply (buttons_binary_publish (node_of (time_time _)) Hstored).
  - exact Hstored.
  - by apply (buttons_binary_publish _ Hstored).
Qed.

(** X19.  As long as every [Key] event carries the state 0 or 1, every
    button of the state buffer and of every published message is 0 or 1,
    over any run of the timer. *)
Theorem buttons_stay_binary (ticks : list (list GamePad))
    (self : JoystickRos2) :
  Forall (fun gamepads =>
            match gamepads with
            | [] => True
            | gamepad :: _ =>
                Forall (fun e => button_event e -> binary (state e))
                       (pending gamepad)
            end) ticks ->
  buttons_binary self ->
  buttons_binary (node_of (spin ticks self)).
Proof.
  intros Hticks Hkept.
  apply (invariant_spin buttons_binary
           (fun e => button_event e -> binary (state e))).
  - intros event s. apply buttons_binary_handle.
  - intros s Hs. exact Hs.
  - apply buttons_binary_publish.
  - exact Hticks.
  - exact Hkept.
Qed.

Lemma default_node_buttons_binary (clock : nat -> Q) :
  buttons_binary (default_node clock).
Proof.
  split; [|constructor]. cbn. repeat (constructor; [by left|]). constructor.
Qed.

Lemma buttons_stay_binary_witness :
  buttons_binary (default_node fast_clock) /\
  buttons_binary (node_of (spin [[busy_pad]] (default_node fast_clock))).
Proof.
  split; [apply default_node_buttons_binary|].
  apply buttons_stay_binary; [|apply default_node_buttons_binary].
  constructor; [|constructor]. cbn. constructor; [intros _; by right|].
  constructor; [intros H; discriminate H|constructor].
Defined.
